(** * Credential broker and authorization flow of google-workspace-mcp

    A shallow embedding of [api.ts] (the [WorkspaceAPI] class and
    [handleApiError]) and of the two set-up routes of [index.ts]
    ([GET /setup] and [GET /oauth2callback]), followed by the properties of
    the credential broker that the specification states.

    Conventions of the embedding:
    - values that come from an HTTP request are untyped JavaScript values
      ([jsval]); a TypeScript cast ([req.query.code as string]) has no effect
      at run time and is modelled as none;
    - values handed over by the Google client libraries and by [process.env]
      follow their declared types ([string | null | undefined] is an
      [option string]);
    - an object created with [new] carries a reference, drawn from an
      allocation counter, so that two structurally equal objects built at
      different times remain distinguishable;
    - numbers are integers (HTTP statuses); floating point is not modelled. *)

From Stdlib Require Import ZArith Ascii.
From stdpp Require Import base option list strings pretty gmap.

#[local] Set Warnings "-register-all".

(** ** JavaScript values *)

Module JS.

Inductive jsval : Type :=
| VUndefined
| VNull
| VBool (b : bool)
| VNum (n : Z)
| VStr (s : string)
| VArr (xs : list jsval)
| VObj (props : list (string * jsval)).

(** The double-quote character and the line feed, which the string literals
    of this file do not spell out. *)
Definition dq : string := String (Ascii.ascii_of_nat 34) EmptyString.
Definition nl : string := String (Ascii.ascii_of_nat 10) EmptyString.

(** ToBoolean. *)
Definition truthy (v : jsval) : bool :=
  match v with
  | VUndefined | VNull => false
  | VBool b => b
  | VNum n => negb (n =? 0)%Z
  | VStr s => negb (String.eqb s "")
  | VArr _ | VObj _ => true
  end.

(** Truthiness of a [string | undefined]. *)
Definition truthy_str (o : option string) : bool :=
  match o with
  | Some s => negb (String.eqb s "")
  | None => false
  end.

(** First binding of a key in a property list (an object holds a key once). *)
Fixpoint assoc {A : Type} (k : string) (props : list (string * A)) : option A :=
  match props with
  | [] => None
  | (k', v) :: rest => if String.eqb k' k then Some v else assoc k rest
  end.

(** [v.k] for the property names this program reads ([token], [message],
    [response], [status], [data], [error]): none of them is defined on the
    prototype of a primitive, an array or a plain object, so only own
    properties of an object answer. [None] is the TypeError of reading a
    property of [null] or [undefined]. *)
Definition get_prop (v : jsval) (k : string) : option jsval :=
  match v with
  | VUndefined | VNull => None
  | VObj props => Some (default VUndefined (assoc k props))
  | _ => Some VUndefined
  end.

(** [v?.k] *)
Definition get_opt (v : jsval) (k : string) : jsval :=
  default VUndefined (get_prop v k).

(** [k in v], for [v] of type object. *)
Definition has_prop (k : string) (props : list (string * jsval)) : bool :=
  bool_decide (is_Some (assoc k props)).

(** [a.join(sep)] on strings. *)
Fixpoint join (sep : string) (xs : list string) : string :=
  match xs with
  | [] => ""
  | [x] => x
  | x :: rest => x +:+ sep +:+ join sep rest
  end.

(** ToString, as a template literal and [String(v)] apply it. *)
Fixpoint ToString (v : jsval) : string :=
  match v with
  | VUndefined => "undefined"
  | VNull => "null"
  | VBool true => "true"
  | VBool false => "false"
  | VNum n => pretty n
  | VStr s => s
  | VArr xs =>
      join "," (map (fun x => match x with
                              | VUndefined | VNull => ""
                              | _ => ToString x
                              end) xs)
  | VObj _ => "[object Object]"
  end.

(** [s.includes(t)] *)
Fixpoint starts_with (t s : string) : bool :=
  match t, s with
  | EmptyString, _ => true
  | String a t', String b s' => if Ascii.eqb a b then starts_with t' s' else false
  | String _ _, EmptyString => false
  end.

Fixpoint includes (s t : string) : bool :=
  starts_with t s ||
  match s with
  | EmptyString => false
  | String _ s' => includes s' t
  end.

(** [s.lastIndexOf("/")]: the index of the last slash, or [-1]. *)
Fixpoint lastIndexOf_from (i : Z) (found : Z) (s : string) : Z :=
  match s with
  | EmptyString => found
  | String c s' =>
      lastIndexOf_from (i + 1) (if Ascii.eqb c "/"%char then i else found) s'
  end.

Definition lastIndexOf_slash (s : string) : Z := lastIndexOf_from 0 (-1) s.

(** [s.substring(0, e)]: a negative end counts as 0. *)
Definition substring0 (e : Z) (s : string) : string :=
  String.substring 0 (Z.to_nat (Z.max 0 e)) s.

End JS.
Import JS.

Example ToString_array :
  ToString (VArr [VStr "a"; VNull; VNum 42; VBool true]) = "a,,42,true".
Proof. vm_compute. reflexivity. Qed.

Example lastIndexOf_examples :
  lastIndexOf_slash "/app/credentials/gmail-tokens.json" = 16%Z
  /\ lastIndexOf_slash "tokens.json" = (-1)%Z
  /\ substring0 16 "/app/credentials/gmail-tokens.json" = "/app/credentials"
  /\ substring0 (-1) "tokens.json" = "".
Proof. vm_compute. repeat split. Qed.

Example includes_examples :
  includes "Error: invalid_grant (revoked)" "invalid_grant" = true
  /\ includes "timeout" "invalid_grant" = false.
Proof. vm_compute. split; reflexivity. Qed.

(** ** Exceptions and results *)

(** A thrown value: an [Error] instance with its message and its other own
    properties (a request error of the Google client carries [response]), or
    any other value. *)
Inductive thrown : Type :=
| Err (message : string) (props : list (string * jsval))
| Val (v : jsval).

Inductive result (A : Type) : Type :=
| Ok (a : A)
| Throw (e : thrown).
Arguments Ok {A} a.
Arguments Throw {A} e.

(** ** Account registry (api.ts) *)

Definition ALLOWED_ACCOUNTS : list string :=
  ["nick@outliyr.com"; "outliyraffiliates@gmail.com"; "iamnickurban@gmail.com"].

Definition isAllowedAccount (account : string) : bool :=
  existsb (String.eqb account) ALLOWED_ACCOUNTS.

Definition SCOPES : list string :=
  ["https://mail.google.com/";
   "https://www.googleapis.com/auth/calendar";
   "https://www.googleapis.com/auth/drive";
   "https://www.googleapis.com/auth/contacts"].

Definition WORKSPACE_ACCOUNT : string := "nick@outliyr.com".

(** ** Data of the broker *)

Record TokenConfig : Type := {
  client_id : string;
  client_secret : string;
  refresh_token : string
}.

(** The token map, [Record<string, TokenConfig>]: a JavaScript object keeps
    its string keys in insertion order, which [Object.keys] and
    [JSON.stringify] follow, so the map is an association list that holds a
    key once. (Keys are e-mail addresses; the special order of integer-like
    keys does not arise.) *)
Definition TokenMap : Type := list (string * TokenConfig).

(** [obj[k] = v] *)
Fixpoint obj_set {A : Type} (k : string) (v : A) (o : list (string * A))
  : list (string * A) :=
  match o with
  | [] => [(k, v)]
  | (k', v') :: rest =>
      if String.eqb k' k then (k', v) :: rest else (k', v') :: obj_set k v rest
  end.

(** [Object.keys(obj)] *)
Definition Object_keys {A : Type} (o : list (string * A)) : list string :=
  map fst o.

(** What [new JWT({...})] and [new OAuth2Client(id, secret)] followed by
    [setCredentials({ refresh_token })] hold. *)
Inductive auth_object : Type :=
| JWT (keyFile : string) (scopes : list string) (subject : string)
| OAuth2Client (clientId clientSecret : string) (credentials_refresh_token : string).

Record credential : Type := {
  cred_ref : nat;
  cred_obj : auth_object
}.

Inductive service_kind : Type := Gmail | Calendar | Drive | People.

#[global] Instance service_kind_eq_dec : EqDecision service_kind.
Proof. solve_decision. Defined.

(** What [google.gmail({ version, auth })] and its three siblings return. *)
Record service_client : Type := {
  svc_ref : nat;
  svc_kind : service_kind;
  svc_version : string;
  svc_auth : credential
}.

(** The fields of a [WorkspaceAPI] instance; [next_ref] is the allocation
    counter of the objects the instance creates. *)
Record WorkspaceAPI : Type := {
  keyFile : string;
  tokensFile : string;
  tokens : TokenMap;
  authClients : gmap string credential;
  gmailClients : gmap string service_client;
  calendarClients : gmap string service_client;
  driveClients : gmap string service_client;
  peopleClients : gmap string service_client;
  next_ref : nat
}.

Definition set_tokens (f : TokenMap -> TokenMap) (a : WorkspaceAPI) : WorkspaceAPI :=
  {| keyFile := keyFile a; tokensFile := tokensFile a; tokens := f (tokens a);
     authClients := authClients a; gmailClients := gmailClients a;
     calendarClients := calendarClients a; driveClients := driveClients a;
     peopleClients := peopleClients a; next_ref := next_ref a |}.

Definition set_authClients (f : gmap string credential -> gmap string credential)
  (a : WorkspaceAPI) : WorkspaceAPI :=
  {| keyFile := keyFile a; tokensFile := tokensFile a; tokens := tokens a;
     authClients := f (authClients a); gmailClients := gmailClients a;
     calendarClients := calendarClients a; driveClients := driveClients a;
     peopleClients := peopleClients a; next_ref := next_ref a |}.

Definition set_gmailClients
  (f : gmap string service_client -> gmap string service_client)
  (a : WorkspaceAPI) : WorkspaceAPI :=
  {| keyFile := keyFile a; tokensFile := tokensFile a; tokens := tokens a;
     authClients := authClients a; gmailClients := f (gmailClients a);
     calendarClients := calendarClients a; driveClients := driveClients a;
     peopleClients := peopleClients a; next_ref := next_ref a |}.

Definition set_calendarClients
  (f : gmap string service_client -> gmap string service_client)
  (a : WorkspaceAPI) : WorkspaceAPI :=
  {| keyFile := keyFile a; tokensFile := tokensFile a; tokens := tokens a;
     authClients := authClients a; gmailClients := gmailClients a;
     calendarClients := f (calendarClients a); driveClients := driveClients a;
     peopleClients := peopleClients a; next_ref := next_ref a |}.

Definition set_driveClients
  (f : gmap string service_client -> gmap string service_client)
  (a : WorkspaceAPI) : WorkspaceAPI :=
  {| keyFile := keyFile a; tokensFile := tokensFile a; tokens := tokens a;
     authClients := authClients a; gmailClients := gmailClients a;
     calendarClients := calendarClients a; driveClients := f (driveClients a);
     peopleClients := peopleClients a; next_ref := next_ref a |}.

Definition set_peopleClients
  (f : gmap string service_client -> gmap string service_client)
  (a : WorkspaceAPI) : WorkspaceAPI :=
  {| keyFile := keyFile a; tokensFile := tokensFile a; tokens := tokens a;
     authClients := authClients a; gmailClients := gmailClients a;
     calendarClients := calendarClients a; driveClients := driveClients a;
     peopleClients := f (peopleClients a); next_ref := next_ref a |}.

Definition bump_ref (a : WorkspaceAPI) : WorkspaceAPI :=
  {| keyFile := keyFile a; tokensFile := tokensFile a; tokens := tokens a;
     authClients := authClients a; gmailClients := gmailClients a;
     calendarClients := calendarClients a; driveClients := driveClients a;
     peopleClients := peopleClients a; next_ref := S (next_ref a) |}.

(** ** Effects

    The calls that leave the process, in the order they are made. *)
Inductive event : Type :=
| MkdirSync (dir : string)
| WriteFileSync (path data : string)
| GetToken (code : jsval)
| GetProfile (access : option string).

(** What [oauth2.getToken(code)] resolves to. *)
Record google_tokens : Type := {
  tok_access_token : option string;
  tok_refresh_token : option string
}.

(** The answers of the outside world to one operation. [env_readTokens] is
    [fs.readFileSync] followed by [JSON.parse], [None] when either throws; a
    file that parses is taken to hold an object of the declared type. *)
Record environment : Type := {
  env_readTokens : string -> option TokenMap;
  env_mkdirSync : string -> option thrown;
  env_writeFileSync : string -> string -> option thrown;
  env_getToken : jsval -> result google_tokens;
  env_getProfile : google_tokens -> result string
}.

(** State of the instance, exceptions and the log of outside calls. *)
Definition M (A : Type) : Type :=
  WorkspaceAPI -> result A * WorkspaceAPI * list event.

Definition ret {A : Type} (a : A) : M A := fun st => (Ok a, st, []).
Definition throw {A : Type} (e : thrown) : M A := fun st => (Throw e, st, []).
Definition bind {A B : Type} (m : M A) (k : A -> M B) : M B :=
  fun st =>
    match m st with
    | (Ok a, st1, l1) => let '(r, st2, l2) := k a st1 in (r, st2, l1 ++ l2)
    | (Throw e, st1, l1) => (Throw e, st1, l1)
    end.
Definition this : M WorkspaceAPI := fun st => (Ok st, st, []).
Definition modify (f : WorkspaceAPI -> WorkspaceAPI) : M unit :=
  fun st => (Ok tt, f st, []).
Definition call (ev : event) (answer : option thrown) : M unit :=
  fun st => (match answer with None => Ok tt | Some e => Throw e end, st, [ev]).

Definition await {A : Type} (ev : event) (answer : result A) : M A :=
  fun st => (answer, st, [ev]).
Definition try_catch {A : Type} (m : M A) (handler : thrown -> M A) : M A :=
  fun st =>
    match m st with
    | (Throw e, st1, l1) =>
        let '(r, st2, l2) := handler e st1 in (r, st2, l1 ++ l2)
    | done => done
    end.

Notation "'let*' x ':=' m 'in' k" := (bind m (fun x => k))
  (at level 10, x name, m at level 100, k at level 200).
Notation "m ';;;' k" := (bind m (fun _ => k))
  (at level 100, k at level 200, right associativity).

Definition new_credential (o : auth_object) : M credential :=
  fun st => (Ok {| cred_ref := next_ref st; cred_obj := o |}, bump_ref st, []).

Definition new_service (k : service_kind) (version : string) (a : credential)
  : M service_client :=
  fun st => (Ok {| svc_ref := next_ref st; svc_kind := k;
                   svc_version := version; svc_auth := a |}, bump_ref st, []).

Definition TokenConfig_to_js (t : TokenConfig) : jsval :=
  VObj [("client_id", VStr (client_id t));
        ("client_secret", VStr (client_secret t));
        ("refresh_token", VStr (refresh_token t))].

Definition TokenMap_to_js (m : TokenMap) : jsval :=
  VObj (map (fun kv => (fst kv, TokenConfig_to_js (snd kv))) m).

(** The options [index.ts] passes to [oauth2.generateAuthUrl]. *)
Record AuthUrlOptions : Type := {
  access_type : string;
  scope : list string;
  prompt : string;
  login_hint : jsval;
  state : string
}.

(** ** The JavaScript runtime and the Google client library

    The built-in and library functions the program calls and whose results it
    only passes on. *)
Class Runtime : Type := {
  (** [JSON.parse(text)], [None] for a SyntaxError *)
  JSON_parse : string -> option jsval;
  (** [JSON.stringify(v)] of a value other than [undefined] *)
  JSON_stringify : jsval -> string;
  (** [JSON.stringify(v, null, 2)] *)
  JSON_stringify_pretty : jsval -> string;
  encodeURIComponent : string -> string;
  (** [new OAuth2Client(id, secret, redirectUri).generateAuthUrl(opts)] *)
  generateAuthUrl : string -> string -> string -> AuthUrlOptions -> string
}.

(** ** The WorkspaceAPI class (api.ts) *)

Section Program.

Context {runtime : Runtime}.

Definition clear_caches (st : WorkspaceAPI) : WorkspaceAPI :=
  set_peopleClients (fun _ => ∅)
    (set_driveClients (fun _ => ∅)
      (set_calendarClients (fun _ => ∅)
        (set_gmailClients (fun _ => ∅)
          (set_authClients (fun _ => ∅) st)))).

Definition loadTokens (env : environment) : M unit :=
  let* st := this in
  match env_readTokens env (tokensFile st) with
  | Some parsed =>
      modify (set_tokens (fun _ => parsed)) ;;;
      modify clear_caches
  | None =>
      modify (set_tokens (fun _ => []))
  end.

(** [new WorkspaceAPI(keyFile, tokensFile)] *)
Definition new_WorkspaceAPI (env : environment) (keyFile tokensFile : string)
  : WorkspaceAPI :=
  let st0 := {| keyFile := keyFile; tokensFile := tokensFile; tokens := [];
                authClients := ∅; gmailClients := ∅; calendarClients := ∅;
                driveClients := ∅; peopleClients := ∅; next_ref := 0 |} in
  snd (fst (loadTokens env st0)).

Definition saveToken (env : environment) (email : string) (token : TokenConfig)
  : M unit :=
  modify (set_tokens (obj_set email token)) ;;;
  let* st := this in
  let dir := substring0 (lastIndexOf_slash (tokensFile st)) (tokensFile st) in
  (if truthy (VStr dir)
   then call (MkdirSync dir) (env_mkdirSync env dir)
   else ret tt) ;;;
  let data := JSON_stringify_pretty (TokenMap_to_js (tokens st)) in
  call (WriteFileSync (tokensFile st) data)
       (env_writeFileSync env (tokensFile st) data) ;;;
  modify (set_authClients (delete email)) ;;;
  modify (set_gmailClients (delete email)) ;;;
  modify (set_calendarClients (delete email)) ;;;
  modify (set_driveClients (delete email)) ;;;
  modify (set_peopleClients (delete email)).

Definition getConfiguredAccounts (st : WorkspaceAPI) : list string :=
  fold_left
    (fun accounts email =>
       if existsb (String.eqb email) accounts then accounts
       else accounts ++ [email])
    (Object_keys (tokens st))
    [WORKSPACE_ACCOUNT].

Definition auth (account : string) : M credential :=
  if negb (isAllowedAccount account)
  then throw (Err ("Account not allowed: " +:+ account) [])
  else
    let* st := this in
    match authClients st !! account with
    | Some client => ret client
    | None =>
        let* client :=
          (if String.eqb account WORKSPACE_ACCOUNT
           then new_credential (JWT (keyFile st) SCOPES account)
           else
             match assoc account (tokens st) with
             | None =>
                 throw (Err ("No refresh token for " +:+ account +:+
                   ". Run the token generation script: npm run generate-token") [])
             | Some tokenConfig =>
                 new_credential
                   (OAuth2Client (client_id tokenConfig)
                      (client_secret tokenConfig) (refresh_token tokenConfig))
             end) in
        modify (set_authClients (insert account client)) ;;;
        ret client
    end.

Definition gmail (account : string) : M service_client :=
  let* st := this in
  match gmailClients st !! account with
  | Some client => ret client
  | None =>
      let* a := auth account in
      let* client := new_service Gmail "v1" a in
      modify (set_gmailClients (insert account client)) ;;;
      ret client
  end.

Definition calendar (account : string) : M service_client :=
  let* st := this in
  match calendarClients st !! account with
  | Some client => ret client
  | None =>
      let* a := auth account in
      let* client := new_service Calendar "v3" a in
      modify (set_calendarClients (insert account client)) ;;;
      ret client
  end.

Definition drive (account : string) : M service_client :=
  let* st := this in
  match driveClients st !! account with
  | Some client => ret client
  | None =>
      let* a := auth account in
      let* client := new_service Drive "v3" a in
      modify (set_driveClients (insert account client)) ;;;
      ret client
  end.

Definition people (account : string) : M service_client :=
  let* st := this in
  match peopleClients st !! account with
  | Some client => ret client
  | None =>
      let* a := auth account in
      let* client := new_service People "v1" a in
      modify (set_peopleClients (insert account client)) ;;;
      ret client
  end.


(** The four getters by service kind. *)
Definition service (k : service_kind) : string -> M service_client :=
  match k with
  | Gmail => gmail
  | Calendar => calendar
  | Drive => drive
  | People => people
  end.

Definition clients (k : service_kind) (st : WorkspaceAPI)
  : gmap string service_client :=
  match k with
  | Gmail => gmailClients st
  | Calendar => calendarClients st
  | Drive => driveClients st
  | People => peopleClients st
  end.

(** ** Error translation (api.ts) *)

(** [error.response] when [error] is a truthy object with that property. *)
Definition response_of (error : thrown) : option jsval :=
  match error with
  | Err _ props | Val (VObj props) =>
      if has_prop "response" props
      then Some (default VUndefined (assoc "response" props))
      else None
  | Val _ => None
  end.

(** [data?.error?.message || (typeof data === "string" ? data :
    JSON.stringify(data))], as the template literals print it. *)
Definition upstream_message (data : jsval) : string :=
  let m := get_opt (get_opt data "error") "message" in
  if truthy m then ToString m
  else match data with
       | VStr s => s
       | VUndefined => "undefined"
       | _ => JSON_stringify data
       end.

Definition AUTH_FAILED : string :=
  "Auth failed — check credentials. For nick@outliyr.com: verify domain-wide delegation. For Gmail accounts: refresh token may be revoked, re-run generate-token. ".

Definition handleApiError (error : thrown) : string :=
  match response_of error with
  | Some resp =>
      let status := get_opt resp "status" in
      let data := get_opt resp "data" in
      let msg := upstream_message data in
      match status with
      | VNum 400 => "Bad request: " +:+ msg
      | VNum 401 => AUTH_FAILED +:+ msg
      | VNum 403 => "Forbidden — ensure the required API scope is granted. " +:+ msg
      | VNum 404 => "Not found: " +:+ msg
      | VNum 429 => "Rate limited. Wait and try again."
      | _ => "Google API error " +:+ ToString status +:+ ": " +:+ msg
      end
  | None =>
      match error with
      | Err message _ =>
          if includes message "invalid_grant"
          then "Refresh token revoked or expired. Re-run: npm run generate-token"
          else if includes message "No refresh token"
          then message +:+ ". Visit /setup on the server to authorize."
          else "Error: " +:+ message
      | Val v => "Unexpected error: " +:+ ToString v
      end
  end.

(** [toolHandler] (tool.ts). Each mode handler first asks the broker for the
    client of [params.account] and then performs [operation], the request to
    the service, which is outside the broker; whatever is thrown on the way
    is translated. *)
Definition toolHandler (account : string) (mode : service_kind)
  (operation : service_client -> result string) : M string :=
  fun st =>
    match service mode account st with
    | (Ok client, st1, l) =>
        (Ok match operation client with
            | Ok text => text
            | Throw err =>
                JSON_stringify (VObj [("error", VStr (handleApiError err))])
            end, st1, l)
    | (Throw err, st1, l) =>
        (Ok (JSON_stringify (VObj [("error", VStr (handleApiError err))])), st1, l)
    end.

(** ** The set-up routes (index.ts) *)

(** The part of the environment-sourced configuration the two routes read.
    The routes are registered only when both Google client values are
    non-empty. *)
Record config : Type := {
  setupToken : option string;
  googleClientId : string;
  googleClientSecret : string;
  publicUrl : string
}.

Definition redirectUri (cfg : config) : string :=
  publicUrl cfg +:+ "/oauth2callback".

Inductive response : Type :=
| Send (status : nat) (body : string)
| Json (status : nat) (body : jsval)
| Redirect (url : string).

(** [req.query.k] *)
Definition req_query (query : list (string * jsval)) (k : string) : jsval :=
  default VUndefined (assoc k query).

(** [v === setupToken] *)
Definition strict_eq (v : jsval) (setupToken : option string) : bool :=
  match v, setupToken with
  | VStr t, Some s => String.eqb t s
  | VUndefined, None => true
  | _, _ => false
  end.

Definition ToString_env (o : option string) : string :=
  match o with Some s => s | None => "undefined" end.

Definition TypeError_read (v : jsval) (k : string) : thrown :=
  Err ("Cannot read properties of " +:+ ToString v +:+
       " (reading '" +:+ k +:+ "')") [].

Definition sp12 : string := "            ".
Definition sp13 : string := "             ".
Definition sp15 : string := "               ".

Definition li (a : string) : string := "<li>" +:+ a +:+ "</li>".

Definition setup_page (cfg : config) (configured : list string) : string :=
  let accounts := ["outliyraffiliates@gmail.com"; "iamnickurban@gmail.com"] in
  "<!DOCTYPE html><html><body>" +:+ nl +:+
  sp12 +:+ "<h1>Google Workspace MCP — Account Setup</h1>" +:+ nl +:+
  sp12 +:+ "<h2>Configured accounts:</h2>" +:+ nl +:+
  sp12 +:+ "<ul>" +:+ join "" (map li configured) +:+ "</ul>" +:+ nl +:+
  sp12 +:+ "<h2>Authorize Gmail accounts:</h2>" +:+ nl +:+
  sp12 +:+ "<ul>" +:+
    join "" (map (fun a =>
      "<li><a href=" +:+ dq +:+ "/setup?token=" +:+
      encodeURIComponent (ToString_env (setupToken cfg)) +:+
      "&account=" +:+ encodeURIComponent a +:+ dq +:+ ">" +:+ a +:+
      "</a></li>") accounts) +:+ "</ul>" +:+ nl +:+
  "          </body></html>".

(** [GET /setup?token=<SETUP_TOKEN>&account=<email>] *)
Definition setup (cfg : config) (query : list (string * jsval))
  (api : WorkspaceAPI) : response :=
  let token := req_query query "token" in
  if negb (truthy_str (setupToken cfg)) || negb (strict_eq token (setupToken cfg))
  then Json 403 (VObj [("error", VStr "Invalid or missing setup token")])
  else
    let account := req_query query "account" in
    if negb (truthy account)
    then Send 200 (setup_page cfg (getConfiguredAccounts api))
    else
      Redirect
        (generateAuthUrl (googleClientId cfg) (googleClientSecret cfg)
           (redirectUri cfg)
           {| access_type := "offline"; scope := SCOPES; prompt := "consent";
              login_hint := account;
              state := JSON_stringify
                (VObj [("account", account);
                       ("token", VStr (ToString_env (setupToken cfg)))]) |}).

Definition no_refresh_token_page : string :=
  "<h1>No refresh token received</h1>" +:+ nl +:+
  sp15 +:+ "<p>This usually means the app already has access." +:+ nl +:+
  sp15 +:+ "Revoke it at <a href=" +:+ dq +:+
    "https://myaccount.google.com/permissions" +:+ dq +:+
    ">Google Account Permissions</a>," +:+ nl +:+
  sp15 +:+ "then try again.</p>".

Definition success_page (cfg : config) (email : string)
  (configured : list string) : string :=
  "<h1>Success!</h1>" +:+ nl +:+
  sp13 +:+ "<p>Token saved for: <strong>" +:+ email +:+ "</strong></p>" +:+ nl +:+
  sp13 +:+ "<h2>All configured accounts:</h2>" +:+ nl +:+
  sp13 +:+ "<ul>" +:+ join "" (map li configured) +:+ "</ul>" +:+ nl +:+
  sp13 +:+ "<p><a href=" +:+ dq +:+ "/setup?token=" +:+
    encodeURIComponent (ToString_env (setupToken cfg)) +:+ dq +:+
    ">Back to setup</a></p>".

(** [GET /oauth2callback], an async handler: [Throw] is the rejection of
    its promise. ([console.error] writes to the process's own stderr and is
    left out of the log.) *)
Definition oauth2callback (cfg : config) (env : environment)
  (query : list (string * jsval)) : M response :=
  let error := req_query query "error" in
  if truthy error
  then ret (Send 400 ("<h1>Authorization failed</h1><p>" +:+ ToString error +:+ "</p>"))
  else
    let code := req_query query "code" in
    let stateRaw := req_query query "state" in
    if negb (truthy code) || negb (truthy stateRaw)
    then ret (Send 400 "<h1>Missing code or state</h1>")
    else
      match JSON_parse (ToString stateRaw) with
      | None => ret (Send 400 "<h1>Invalid state</h1>")
      | Some state =>
          let* mismatch :=
            (if negb (truthy_str (setupToken cfg)) then ret true
             else match get_prop state "token" with
                  | None => throw (TypeError_read state "token")
                  | Some t => ret (negb (strict_eq t (setupToken cfg)))
                  end) in
          if mismatch : bool
          then ret (Send 403 "<h1>Invalid setup token</h1>")
          else
            try_catch
              (let* tokens := await (GetToken code) (env_getToken env code) in
               if negb (truthy_str (tok_refresh_token tokens))
               then ret (Send 400 no_refresh_token_page)
               else
                 let* email :=
                   await (GetProfile (tok_access_token tokens))
                         (env_getProfile env tokens) in
                 saveToken env email
                   {| client_id := googleClientId cfg;
                      client_secret := googleClientSecret cfg;
                      refresh_token := ToString_env (tok_refresh_token tokens) |} ;;;
                 let* api := this in
                 ret (Send 200 (success_page cfg email (getConfiguredAccounts api))))
              (fun err =>
                 match err with
                 | Err message _ =>
                     ret (Send 500 ("<h1>Token exchange failed</h1><p>" +:+
                                    message +:+ "</p>"))
                 | Val v =>
                     match get_prop v "message" with
                     | None => throw (TypeError_read v "message")
                     | Some m =>
                         ret (Send 500 ("<h1>Token exchange failed</h1><p>" +:+
                                        ToString m +:+ "</p>"))
                     end
                 end)
      end.

End Program.

(** ** Reachable states of an instance

    The operations that callers apply to a broker after constructing it.
    ([toolHandler] changes the instance exactly as the getter it calls does;
    [setup] and [getConfiguredAccounts] only read it.) *)
Inductive operation : Type :=
| OpLoadTokens (env : environment)
| OpSaveToken (env : environment) (email : string) (token : TokenConfig)
| OpService (kind : service_kind) (account : string)
| OpCallback (cfg : config) (env : environment) (query : list (string * jsval)).

Section Reachable.

Context {runtime : Runtime}.

Definition state_after {A : Type} (m : M A) (st : WorkspaceAPI) : WorkspaceAPI :=
  snd (fst (m st)).

Definition run (o : operation) : WorkspaceAPI -> WorkspaceAPI :=
  match o with
  | OpLoadTokens env => state_after (loadTokens env)
  | OpSaveToken env email token => state_after (saveToken env email token)
  | OpService kind account => state_after (service kind account)
  | OpCallback cfg env query => state_after (oauth2callback cfg env query)
  end.

Inductive reachable : WorkspaceAPI -> Prop :=
| reachable_new env keyFile tokensFile :
    reachable (new_WorkspaceAPI env keyFile tokensFile)
| reachable_run o st :
    reachable st -> reachable (run o st).

(** Every key of the five caches is on the allow-list. *)
Definition cache_keys_allowed (st : WorkspaceAPI) : Prop :=
  (forall k : string, is_Some (authClients st !! k) -> isAllowedAccount k = true)
  /\ (forall kind (k : string),
        is_Some (clients kind st !! k) -> isAllowedAccount k = true).

(** Every cached object was allocated before the next reference. *)
Definition refs_allocated (st : WorkspaceAPI) : Prop :=
  (forall (k : string) c, authClients st !! k = Some c -> cred_ref c < next_ref st)
  /\ (forall kind (k : string) c,
        clients kind st !! k = Some c -> svc_ref c < next_ref st).

(** The write discipline the specification asks of the token store, in its
    own words: the data go to a temporary location first, so no
    [writeFileSync] of the log targets the token file itself. *)
Definition writes_via_temporary (path : string) (log : list event) : Prop :=
  forall p data, WriteFileSync p data ∈ log -> p <> path.

End Reachable.

(** ** A sample runtime

    A concrete runtime for the examples: compact JSON printing of values
    whose strings need no escaping, a parser that knows the three state
    texts the examples send, and an identity URI encoding (exact on the
    unreserved characters the examples use). *)

Fixpoint sample_stringify (v : jsval) : string :=
  match v with
  | VUndefined | VNull => "null"
  | VBool true => "true"
  | VBool false => "false"
  | VNum n => pretty n
  | VStr s => dq +:+ s +:+ dq
  | VArr xs => "[" +:+ join "," (map sample_stringify xs) +:+ "]"
  | VObj props =>
      "{" +:+ join "," (map (fun kv => match kv with
                                       | (k, x) => dq +:+ k +:+ dq +:+ ":" +:+
                                                   sample_stringify x
                                       end) props) +:+ "}"
  end.

Definition sample_state (account token : string) : jsval :=
  VObj [("account", VStr account); ("token", VStr token)].

Definition sample_parse (text : string) : option jsval :=
  if String.eqb text "null" then Some VNull
  else if String.eqb text "{}" then Some (VObj [])
  else if String.eqb text
            (sample_stringify (sample_state "iamnickurban@gmail.com" "s3cret"))
  then Some (sample_state "iamnickurban@gmail.com" "s3cret")
  else None.

Definition sample_runtime : Runtime :=
  {| JSON_parse := sample_parse;
     JSON_stringify := sample_stringify;
     JSON_stringify_pretty := sample_stringify;
     encodeURIComponent := fun s => s;
     generateAuthUrl := fun id _ redirect opts =>
       "https://accounts.google.com/o/oauth2/v2/auth?client_id=" +:+ id +:+
       "&redirect_uri=" +:+ redirect +:+ "&state=" +:+ state opts |}.

(** A world in which every outside call succeeds: the token file is absent,
    the code exchange yields [tokens], the profile names [email]. *)
Definition sample_env (tokens : google_tokens) (email : string) : environment :=
  {| env_readTokens := fun _ => None;
     env_mkdirSync := fun _ => None;
     env_writeFileSync := fun _ _ => None;
     env_getToken := fun _ => Ok tokens;
     env_getProfile := fun _ => Ok email |}.

Definition sample_tokens (refresh : option string) : google_tokens :=
  {| tok_access_token := Some "ya29.access"; tok_refresh_token := refresh |}.

Definition sample_config (secret : option string) : config :=
  {| setupToken := secret; googleClientId := "client-id";
     googleClientSecret := "client-secret";
     publicUrl := "https://mcp.example.org" |}.

Definition sample_api : WorkspaceAPI :=
  new_WorkspaceAPI (sample_env (sample_tokens None) "")
    "/app/credentials/google-sa.json" "/app/credentials/gmail-tokens.json".

(** * Properties *)

Section Properties.

Context {runtime : Runtime}.

(** ** The token map *)

Lemma assoc_obj_set_eq {A : Type} (k : string) (v : A) (o : list (string * A)) :
  assoc k (obj_set k v o) = Some v.
Proof.
  induction o as [|[k' v'] o IH]; simpl.
  - by rewrite String.eqb_refl.
  - destruct (String.eqb k' k) eqn:E; simpl; rewrite E; [done | exact IH].
Qed.

Lemma assoc_obj_set_ne {A : Type} (k j : string) (v : A) (o : list (string * A)) :
  k <> j -> assoc j (obj_set k v o) = assoc j o.
Proof.
  intros Hne. induction o as [|[k' v'] o IH]; simpl.
  - apply String.eqb_neq in Hne. by rewrite Hne.
  - destruct (String.eqb k' k) eqn:E; simpl.
    + apply String.eqb_eq in E. subst k'. simpl.
      apply String.eqb_neq in Hne. by rewrite Hne.
    + by rewrite IH.
Qed.

Lemma Object_keys_obj_set {A : Type} (k : string) (v : A) (o : list (string * A)) :
  k ∈ Object_keys (obj_set k v o).
Proof.
  unfold Object_keys. induction o as [|[k' v'] o IH]; simpl.
  - by left.
  - destruct (String.eqb k' k) eqn:E; simpl.
    + apply String.eqb_eq in E. subst. by left.
    + by right.
Qed.

(** ** The shape of the broker's operations *)

Definition set_clients (k : service_kind)
  (f : gmap string service_client -> gmap string service_client)
  : WorkspaceAPI -> WorkspaceAPI :=
  match k with
  | Gmail => set_gmailClients f
  | Calendar => set_calendarClients f
  | Drive => set_driveClients f
  | People => set_peopleClients f
  end.

Definition version_of (k : service_kind) : string :=
  match k with
  | Gmail | People => "v1"
  | Calendar | Drive => "v3"
  end.

Definition not_allowed (account : string) : thrown :=
  Err ("Account not allowed: " +:+ account) [].

Lemma auth_not_allowed account st :
  isAllowedAccount account = false ->
  auth account st = (Throw (not_allowed account), st, []).
Proof. intros H. unfold auth. by rewrite H. Qed.

(** [auth] either throws and leaves the instance as it was, or returns the
    cached credential, or allocates one and caches it under an allowed key. *)
Lemma auth_cases account st r st' l :
  auth account st = (r, st', l) ->
  l = [] /\
  ((exists e, r = Throw e /\ st' = st)
   \/ (exists c, r = Ok c /\ isAllowedAccount account = true /\
        ((authClients st !! account = Some c /\ st' = st)
         \/ (authClients st !! account = None /\ cred_ref c = next_ref st /\
             st' = set_authClients (insert account c) (bump_ref st))))).
Proof.
  unfold auth. destruct (isAllowedAccount account) eqn:Hallowed; simpl.
  2: { intros [= <- <- <-]. split; [done|]. left. eauto. }
  unfold bind, this, ret, throw, modify, new_credential.
  destruct (authClients st !! account) as [c|] eqn:Hc.
  { intros [= <- <- <-]. split; [done|]. right. exists c. eauto. }
  destruct (String.eqb account WORKSPACE_ACCOUNT).
  { simpl. intros [= <- <- <-]. split; [done|]. right. eexists. eauto 10. }
  destruct (assoc account (tokens st)) as [tc|].
  { simpl. intros [= <- <- <-]. split; [done|]. right. eexists. eauto 10. }
  intros [= <- <- <-]. split; [done|]. left. eauto.
Qed.

Lemma service_unfold k account st :
  service k account st =
  match clients k st !! account with
  | Some client => (Ok client, st, [])
  | None =>
      match auth account st with
      | (Ok a, st1, l) =>
          let client := {| svc_ref := next_ref st1; svc_kind := k;
                           svc_version := version_of k; svc_auth := a |} in
          (Ok client, set_clients k (insert account client) (bump_ref st1),
           l ++ [] ++ [] ++ [])
      | (Throw e, st1, l) => (Throw e, st1, l)
      end
  end.
Proof.
  destruct k; simpl;
    unfold gmail, calendar, drive, people, bind, this, ret, modify, new_service;
    simpl; (destruct (_ !! account); [done|]);
    destruct (auth account st) as [[[a|e] st1] l]; done.
Qed.

Lemma service_not_allowed k account st :
  isAllowedAccount account = false ->
  clients k st !! account = None ->
  service k account st = (Throw (not_allowed account), st, []).
Proof.
  intros Hna Hnone. rewrite service_unfold, Hnone.
  by rewrite (auth_not_allowed _ _ Hna).
Qed.

Definition drop_caches (email : string) (st : WorkspaceAPI) : WorkspaceAPI :=
  set_peopleClients (delete email)
    (set_driveClients (delete email)
      (set_calendarClients (delete email)
        (set_gmailClients (delete email)
          (set_authClients (delete email) st)))).

Definition parent_dir (st : WorkspaceAPI) : string :=
  substring0 (lastIndexOf_slash (tokensFile st)) (tokensFile st).

Definition token_file_data (m : TokenMap) : string :=
  JSON_stringify_pretty (TokenMap_to_js m).

(** The outside calls of [saveToken] up to and including the write. *)
Definition saveToken_calls (email : string) (token : TokenConfig)
  (st : WorkspaceAPI) : list event :=
  (if truthy (VStr (parent_dir st)) then [MkdirSync (parent_dir st)] else [])
  ++ [WriteFileSync (tokensFile st)
        (token_file_data (obj_set email token (tokens st)))].

Lemma saveToken_unfold env email token st :
  saveToken env email token st =
  let st0 := set_tokens (obj_set email token) st in
  match (if truthy (VStr (parent_dir st))
         then env_mkdirSync env (parent_dir st) else None) with
  | Some e => (Throw e, st0, [MkdirSync (parent_dir st)])
  | None =>
      match env_writeFileSync env (tokensFile st)
              (token_file_data (obj_set email token (tokens st))) with
      | Some e => (Throw e, st0, saveToken_calls email token st)
      | None => (Ok tt, drop_caches email st0, saveToken_calls email token st)
      end
  end.
Proof.
  unfold saveToken, saveToken_calls, token_file_data, parent_dir, bind, this,
    modify, call, ret.
  destruct (truthy _); simpl.
  - destruct (env_mkdirSync env _); simpl; [done|].
    destruct (env_writeFileSync env _ _); simpl; done.
  - destruct (env_writeFileSync env _ _); simpl; done.
Qed.

Lemma saveToken_ok env email token st st1 l :
  saveToken env email token st = (Ok tt, st1, l) ->
  st1 = drop_caches email (set_tokens (obj_set email token) st)
  /\ l = saveToken_calls email token st.
Proof.
  rewrite saveToken_unfold. cbv zeta.
  destruct (if truthy _ then _ else _); [done|].
  destruct (env_writeFileSync _ _ _); [done|].
  by intros [= <- <-].
Qed.

(** Whether it returns or throws, [saveToken] leaves the token map updated
    and each cache either without the entries of [email] or untouched. *)
Lemma saveToken_state env email token st :
  let st0 := set_tokens (obj_set email token) st in
  state_after (saveToken env email token) st = st0
  \/ state_after (saveToken env email token) st = drop_caches email st0.
Proof.
  unfold state_after. rewrite saveToken_unfold. cbv zeta.
  destruct (if truthy _ then _ else _); [by left|].
  destruct (env_writeFileSync _ _ _); [by left | by right].
Qed.

Lemma loadTokens_unfold env st :
  loadTokens env st =
  match env_readTokens env (tokensFile st) with
  | Some parsed => (Ok tt, clear_caches (set_tokens (fun _ => parsed) st), [])
  | None => (Ok tt, set_tokens (fun _ => []) st, [])
  end.
Proof.
  unfold loadTokens, bind, this, modify.
  by destruct (env_readTokens env (tokensFile st)).
Qed.

(** The callback changes the instance through [saveToken] only. *)
Lemma oauth2callback_state cfg env query st :
  state_after (oauth2callback cfg env query) st = st
  \/ exists email token,
       state_after (oauth2callback cfg env query) st
       = state_after (saveToken env email token) st.
Proof.
  unfold state_after, oauth2callback.
  destruct (truthy (req_query query "error")); [by left|].
  destruct (negb _ || negb _); [by left|].
  destruct (JSON_parse _) as [parsed|]; [|by left].
  unfold bind at 1.
  destruct (negb (truthy_str (setupToken cfg))); simpl; [by left|].
  destruct (get_prop parsed "token") as [t|]; simpl; [|by left].
  destruct (negb (strict_eq t (setupToken cfg))); simpl; [by left|].
  unfold try_catch, bind, await, this, ret, throw.
  destruct (env_getToken env _) as [toks|e]; simpl.
  - destruct (negb (truthy_str (tok_refresh_token toks))); simpl; [by left|].
    destruct (env_getProfile env toks) as [email|e]; simpl.
    + right.
      exists email, {| client_id := googleClientId cfg;
                       client_secret := googleClientSecret cfg;
                       refresh_token := ToString_env (tok_refresh_token toks) |}.
      destruct (saveToken env email _ st) as [[[[]|e] st1] l1]; simpl; [done|].
      destruct e as [m ps|v]; simpl; [done|].
      destruct (get_prop v "message"); done.
    + left. destruct e as [m ps|v]; simpl; [done|].
      destruct (get_prop v "message"); done.
  - left. destruct e as [m ps|v]; simpl; [done|].
    destruct (get_prop v "message"); done.
Qed.

(** ** Invariants of the caches *)

Lemma clients_set_clients kind k f st :
  clients kind (set_clients k f st)
  = if bool_decide (kind = k) then f (clients kind st) else clients kind st.
Proof. by destruct kind, k. Qed.

Lemma clients_set_authClients kind f st :
  clients kind (set_authClients f st) = clients kind st.
Proof. by destruct kind. Qed.

Lemma clients_bump_ref kind st : clients kind (bump_ref st) = clients kind st.
Proof. by destruct kind. Qed.

Lemma clients_set_tokens kind f st :
  clients kind (set_tokens f st) = clients kind st.
Proof. by destruct kind. Qed.

Lemma clients_drop_caches kind email st :
  clients kind (drop_caches email st) = delete email (clients kind st).
Proof. by destruct kind. Qed.

Lemma clients_clear_caches kind st : clients kind (clear_caches st) = ∅.
Proof. by destruct kind. Qed.

Lemma authClients_set_clients k f st :
  authClients (set_clients k f st) = authClients st.
Proof. by destruct k. Qed.

Lemma next_ref_set_clients k f st : next_ref (set_clients k f st) = next_ref st.
Proof. by destruct k. Qed.

Section Invariant.

(** A property of the caches and the allocation counter that survives the
    primitive updates survives every operation. *)
Variable P : WorkspaceAPI -> Prop.
Hypothesis P_set_tokens : forall f st, P st -> P (set_tokens f st).
Hypothesis P_drop : forall email st, P st -> P (drop_caches email st).
Hypothesis P_clear : forall st, P st -> P (clear_caches st).
Hypothesis P_cache_credential : forall account c st,
  P st -> isAllowedAccount account = true -> cred_ref c = next_ref st ->
  P (set_authClients (insert account c) (bump_ref st)).
Hypothesis P_cache_client : forall k account c st,
  P st -> isAllowedAccount account = true -> svc_ref c = next_ref st ->
  P (set_clients k (insert account c) (bump_ref st)).

Lemma preserved_auth account st : P st -> P (state_after (auth account) st).
Proof.
  intros HP. unfold state_after.
  destruct (auth account st) as [[r st'] l] eqn:Hauth.
  apply auth_cases in Hauth as [_ [(e & _ & ->) | (c & _ & Hok & Hc)]]; [done|].
  destruct Hc as [[_ ->] | (_ & Href & ->)]; [done|]. by apply P_cache_credential.
Qed.

Lemma preserved_service k account st :
  P st -> P (state_after (service k account) st).
Proof.
  intros HP. unfold state_after. rewrite service_unfold.
  destruct (clients k st !! account); [done|].
  pose proof (preserved_auth account st HP) as HP1. unfold state_after in HP1.
  destruct (auth account st) as [[[a|e] st1] l] eqn:Hauth; simpl in *; [|done].
  apply auth_cases in Hauth as [_ [(e & [=] & _) | (c & _ & Hok & _)]].
  by apply P_cache_client.
Qed.

Lemma preserved_saveToken env email token st :
  P st -> P (state_after (saveToken env email token) st).
Proof.
  intros HP. destruct (saveToken_state env email token st) as [-> | ->]; auto.
Qed.

Lemma preserved_loadTokens env st :
  P st -> P (state_after (loadTokens env) st).
Proof.
  intros HP. unfold state_after. rewrite loadTokens_unfold.
  destruct (env_readTokens env (tokensFile st)); simpl; auto.
Qed.

Lemma preserved_run o st : P st -> P (run o st).
Proof.
  intros HP. destruct o as [env|env email token|k account|cfg env query]; simpl.
  - by apply preserved_loadTokens.
  - by apply preserved_saveToken.
  - by apply preserved_service.
  - destruct (oauth2callback_state cfg env query st) as [-> | (e & t & ->)];
      [done | by apply preserved_saveToken].
Qed.

Hypothesis P_fresh : forall keyFile tokensFile,
  P {| keyFile := keyFile; tokensFile := tokensFile; tokens := [];
       authClients := ∅; gmailClients := ∅; calendarClients := ∅;
       driveClients := ∅; peopleClients := ∅; next_ref := 0 |}.

Lemma preserved_reachable st : reachable st -> P st.
Proof.
  induction 1 as [env kf tf | o st _ IH].
  - unfold new_WorkspaceAPI. apply (preserved_loadTokens env), P_fresh.
  - by apply preserved_run.
Qed.

End Invariant.

Lemma reachable_cache_keys_allowed st : reachable st -> cache_keys_allowed st.
Proof.
  apply preserved_reachable; unfold cache_keys_allowed.
  - intros f s [Ha Hc]. split; [done|].
    intros kind k. rewrite clients_set_tokens. apply Hc.
  - intros email s [Ha Hc]. split.
    + intros k. simpl. rewrite lookup_delete_is_Some. intros [_ H]. by apply Ha.
    + intros kind k. rewrite clients_drop_caches, lookup_delete_is_Some.
      intros [_ H]. by apply (Hc kind).
  - intros s _. split.
    + intros k. simpl. rewrite lookup_empty. by intros [? [=]].
    + intros kind k. rewrite clients_clear_caches, lookup_empty. by intros [? [=]].
  - intros account c s [Ha Hc] Hallowed _. split.
    + intros k. simpl. rewrite lookup_insert_is_Some'. intros [<- | H]; auto.
    + intros kind k. rewrite clients_set_authClients, clients_bump_ref. apply Hc.
  - intros k0 account c s [Ha Hc] Hallowed _. split.
    + intros k. rewrite authClients_set_clients. apply Ha.
    + intros kind k. rewrite clients_set_clients, clients_bump_ref.
      case_bool_decide; [|apply Hc].
      rewrite lookup_insert_is_Some'. intros [<- | Hs]; [done | by apply (Hc kind)].
  - intros kf tf. split.
    + intros k. simpl. rewrite lookup_empty. by intros [? [=]].
    + intros kind k. destruct kind; simpl; rewrite lookup_empty; by intros [? [=]].
Qed.

Lemma reachable_refs_allocated st : reachable st -> refs_allocated st.
Proof.
  apply preserved_reachable; unfold refs_allocated.
  - intros f s [Ha Hc]. split; [done|].
    intros kind k c. rewrite clients_set_tokens. apply Hc.
  - intros email s [Ha Hc]. split.
    + intros k c. simpl. rewrite lookup_delete_Some. intros [_ H]. by apply (Ha k).
    + intros kind k c. rewrite clients_drop_caches, lookup_delete_Some.
      intros [_ H]. by apply (Hc kind k).
  - intros s _. split.
    + intros k c. simpl. by rewrite lookup_empty.
    + intros kind k c. by rewrite clients_clear_caches, lookup_empty.
  - intros account c s [Ha Hc] _ Href. split.
    + intros k c'. simpl. rewrite lookup_insert_Some.
      intros [[_ <-] | [_ H]]; [lia|]. apply Ha in H. lia.
    + intros kind k c'. rewrite clients_set_authClients, clients_bump_ref.
      intros H. apply Hc in H. simpl. lia.
  - intros k0 account c s [Ha Hc] _ Href. split.
    + intros k c'. rewrite authClients_set_clients, next_ref_set_clients.
      intros H. apply Ha in H. simpl in *. lia.
    + intros kind k c'.
      rewrite clients_set_clients, clients_bump_ref, next_ref_set_clients.
      case_bool_decide.
      * rewrite lookup_insert_Some.
        intros [[_ <-] | [_ Hs]]; simpl; [lia|]. apply Hc in Hs. lia.
      * intros Hs. apply Hc in Hs. simpl. lia.
  - intros kf tf. split.
    + intros k c. simpl. by rewrite lookup_empty.
    + intros kind k c. destruct kind; simpl; by rewrite lookup_empty.
Qed.

Lemma reachable_outsider_uncached st account :
  reachable st -> isAllowedAccount account = false ->
  authClients st !! account = None
  /\ forall k, clients k st !! account = None.
Proof.
  intros Hr Hna. destruct (reachable_cache_keys_allowed st Hr) as [Ha Hc].
  split; [|intros k]; apply eq_None_not_Some; intros Hs.
  - apply Ha in Hs. congruence.
  - apply Hc in Hs. congruence.
Qed.

(** ** Configured accounts *)

Lemma getConfiguredAccounts_push keys : forall acc (x : string),
  x ∈ acc \/ x ∈ keys ->
  x ∈ fold_left (fun accounts email =>
         if existsb (String.eqb email) accounts then accounts
         else accounts ++ [email]) keys acc.
Proof.
  induction keys as [|a keys IH]; simpl; intros acc x [H|H].
  - done.
  - by apply elem_of_nil in H.
  - apply IH. left. destruct (existsb _ acc); [done|].
    apply elem_of_app. by left.
  - apply elem_of_cons in H as [-> | H]; [|apply IH; by right].
    apply IH. left. destruct (existsb _ acc) eqn:E.
    + apply existsb_exists in E as (y & Hin & Heq).
      apply String.eqb_eq in Heq. subst y. by apply list_elem_of_In.
    + apply elem_of_app. right. by apply list_elem_of_singleton.
Qed.

Lemma getConfiguredAccounts_lists_keys st (k : string) :
  k ∈ Object_keys (tokens st) -> k ∈ getConfiguredAccounts st.
Proof. intros H. apply getConfiguredAccounts_push. by right. Qed.

(** ** The allow-list is a hard boundary *)

(** C1: for an account outside the allow-list, [auth] throws the
    'Account not allowed' error and leaves the instance exactly as it was
    (no credential allocated, none cached, no outside call), whatever the
    token map holds; so does each of the four getters that reach [auth],
    which is every getter in a reachable state. *)
Theorem outsider_is_rejected account st :
  isAllowedAccount account = false ->
  auth account st = (Throw (Err ("Account not allowed: " +:+ account) []), st, [])
  /\ (forall k, clients k st !! account = None ->
        service k account st
        = (Throw (Err ("Account not allowed: " +:+ account) []), st, []))
  /\ (reachable st -> forall k,
        service k account st
        = (Throw (Err ("Account not allowed: " +:+ account) []), st, [])).
Proof.
  intros Hna. split; [by apply auth_not_allowed|]. split.
  - intros k Hnone. by apply service_not_allowed.
  - intros Hr k. apply service_not_allowed; [done|].
    by apply reachable_outsider_uncached.
Qed.

(** ** A saved token is the one the next resolution uses *)

Lemma auth_unfold account st :
  auth account st =
  if isAllowedAccount account then
    match authClients st !! account with
    | Some client => (Ok client, st, [])
    | None =>
        let cache o :=
          let c := {| cred_ref := next_ref st; cred_obj := o |} in
          (Ok c, set_authClients (insert account c) (bump_ref st), []) in
        if String.eqb account WORKSPACE_ACCOUNT
        then cache (JWT (keyFile st) SCOPES account)
        else match assoc account (tokens st) with
             | Some tc =>
                 cache (OAuth2Client (client_id tc) (client_secret tc)
                          (refresh_token tc))
             | None =>
                 (Throw (Err ("No refresh token for " +:+ account +:+
                    ". Run the token generation script: npm run generate-token")
                    []), st, [])
             end
    end
  else (Throw (Err ("Account not allowed: " +:+ account) []), st, []).
Proof.
  unfold auth, bind, this, ret, throw, modify, new_credential.
  destruct (isAllowedAccount account); simpl; [|done].
  destruct (authClients st !! account); [done|].
  destruct (String.eqb account WORKSPACE_ACCOUNT); [done|].
  by destruct (assoc account (tokens st)).
Qed.

(** C2: when [saveToken id rec] returns for an allowed OAuth identity, the
    cache holds no credential for [id], and the [auth id] that follows
    allocates a new OAuth2 credential seeded with the client values and the
    refresh token of [rec]; it is none of the credentials cached before the
    save. *)
Theorem auth_after_saveToken env id rec st st1 l :
  isAllowedAccount id = true ->
  id <> WORKSPACE_ACCOUNT ->
  saveToken env id rec st = (Ok tt, st1, l) ->
  let c := {| cred_ref := next_ref st1;
              cred_obj := OAuth2Client (client_id rec) (client_secret rec)
                            (refresh_token rec) |} in
  authClients st1 !! id = None
  /\ auth id st1 = (Ok c, set_authClients (insert id c) (bump_ref st1), [])
  /\ (reachable st -> forall (k : string) c0,
        authClients st !! k = Some c0 -> c0 <> c).
Proof.
  intros Hallowed Hoauth Hsave c.
  apply saveToken_ok in Hsave as [-> _].
  assert (Hnone : authClients
            (drop_caches id (set_tokens (obj_set id rec) st)) !! id = None)
    by (simpl; apply lookup_delete_eq).
  split; [done|]. split.
  - rewrite auth_unfold, Hallowed, Hnone.
    apply String.eqb_neq in Hoauth. rewrite Hoauth.
    replace (tokens (drop_caches id (set_tokens (obj_set id rec) st)))
      with (obj_set id rec (tokens st)) by done.
    by rewrite assoc_obj_set_eq.
  - intros Hr k c0 Hc0 ->.
    apply (reachable_refs_allocated st Hr) in Hc0. simpl in Hc0. lia.
Qed.

(** ** Only allowed identities are ever cached *)

Lemma isAllowedAccount_spec account :
  isAllowedAccount account = true <-> account ∈ ALLOWED_ACCOUNTS.
Proof.
  unfold isAllowedAccount. rewrite existsb_exists. split.
  - intros (x & Hin & Heq). apply String.eqb_eq in Heq. subst x.
    by apply list_elem_of_In.
  - intros Hin. exists account. split; [by apply list_elem_of_In|].
    apply String.eqb_refl.
Qed.

Lemma tokens_after_saveToken env email token st :
  tokens (state_after (saveToken env email token) st)
  = obj_set email token (tokens st).
Proof. by destruct (saveToken_state env email token st) as [-> | ->]. Qed.

Lemma Object_keys_assoc {A : Type} (k : string) (o : list (string * A)) :
  is_Some (assoc k o) -> k ∈ Object_keys o.
Proof.
  unfold Object_keys. induction o as [|[k' v'] o IH]; simpl.
  - by intros [? [=]].
  - destruct (String.eqb k' k) eqn:E.
    + apply String.eqb_eq in E. subst. intros _. by left.
    + intros H. right. by apply IH.
Qed.

(** C9: in every reachable state each key of the credential cache and of the
    four service-client caches is on the allow-list. [saveToken] itself
    checks no allow-list: after it, the record is in the token map under
    whatever [email] it was given and [getConfiguredAccounts] lists that
    identity, yet an identity outside the allow-list still has no entry in
    any cache. *)
Theorem cached_identities_are_allowed st :
  reachable st ->
  ((forall k : string, is_Some (authClients st !! k) -> k ∈ ALLOWED_ACCOUNTS)
   /\ (forall kind (k : string),
         is_Some (clients kind st !! k) -> k ∈ ALLOWED_ACCOUNTS))
  /\ forall env email token,
       let st' := run (OpSaveToken env email token) st in
       reachable st'
       /\ assoc email (tokens st') = Some token
       /\ email ∈ getConfiguredAccounts st'
       /\ (isAllowedAccount email = false ->
           authClients st' !! email = None
           /\ forall kind, clients kind st' !! email = None).
Proof.
  intros Hr. split.
  - destruct (reachable_cache_keys_allowed st Hr) as [Ha Hc].
    split; [intros k Hs | intros kind k Hs]; apply isAllowedAccount_spec; eauto.
  - intros env email token st'.
    assert (Hr' : reachable st') by by apply reachable_run.
    assert (Htok : assoc email (tokens st') = Some token).
    { unfold st'. simpl. rewrite tokens_after_saveToken. apply assoc_obj_set_eq. }
    split; [done|]. split; [done|]. split.
    + apply getConfiguredAccounts_lists_keys, Object_keys_assoc. by rewrite Htok.
    + intros Hna. by apply reachable_outsider_uncached.
Qed.

(** ** The authorization callback *)

(** The guards of the callback, up to the comparison of the secret: the
    request carries no [error], a code and a state, the state parses, a
    setup secret is configured and the [token] of the state is that secret. *)
Definition admitted (cfg : config) (query : list (string * jsval)) : bool :=
  negb (truthy (req_query query "error"))
  && truthy (req_query query "code")
  && truthy (req_query query "state")
  && match JSON_parse (ToString (req_query query "state")) with
     | Some parsed =>
         truthy_str (setupToken cfg)
         && match get_prop parsed "token" with
            | Some t => strict_eq t (setupToken cfg)
            | None => false
            end
     | None => false
     end.

(** How a callback ends that was not admitted. *)
Inductive refusal (cfg : config) (query : list (string * jsval))
  : result response -> Prop :=
| refusal_error :
    truthy (req_query query "error") = true ->
    refusal cfg query
      (Ok (Send 400 ("<h1>Authorization failed</h1><p>" +:+
                     ToString (req_query query "error") +:+ "</p>")))
| refusal_missing :
    truthy (req_query query "code") && truthy (req_query query "state") = false ->
    refusal cfg query (Ok (Send 400 "<h1>Missing code or state</h1>"))
| refusal_invalid_state :
    JSON_parse (ToString (req_query query "state")) = None ->
    refusal cfg query (Ok (Send 400 "<h1>Invalid state</h1>"))
| refusal_secret parsed :
    JSON_parse (ToString (req_query query "state")) = Some parsed ->
    truthy_str (setupToken cfg) = false
    \/ (exists t, get_prop parsed "token" = Some t
                  /\ strict_eq t (setupToken cfg) = false) ->
    refusal cfg query (Ok (Send 403 "<h1>Invalid setup token</h1>"))
| refusal_TypeError parsed :
    JSON_parse (ToString (req_query query "state")) = Some parsed ->
    get_prop parsed "token" = None ->
    truthy_str (setupToken cfg) = true ->
    refusal cfg query (Throw (TypeError_read parsed "token")).

Lemma oauth2callback_refused cfg env query st :
  admitted cfg query = false ->
  exists r, oauth2callback cfg env query st = (r, st, []) /\ refusal cfg query r.
Proof.
  unfold admitted, oauth2callback. intros Hadm.
  destruct (truthy (req_query query "error")) eqn:Herr.
  { eexists. split; [done|]. by constructor. }
  destruct (truthy (req_query query "code")) eqn:Hcode; simpl in *.
  2: { eexists. split; [done|]. apply refusal_missing. by rewrite Hcode. }
  destruct (truthy (req_query query "state")) eqn:Hstate; simpl in *.
  2: { eexists. split; [done|]. apply refusal_missing. by rewrite Hcode, Hstate. }
  destruct (JSON_parse _) as [parsed|] eqn:Hparse.
  2: { eexists. split; [done|]. by apply refusal_invalid_state. }
  unfold bind at 1.
  destruct (truthy_str (setupToken cfg)) eqn:Hsecret; simpl in *.
  2: { eexists. split; [done|]. eapply refusal_secret; [done | by left]. }
  destruct (get_prop parsed "token") as [t|] eqn:Htoken; simpl.
  2: { eexists. split; [done|]. by eapply refusal_TypeError. }
  rewrite Hadm. simpl. eexists. split; [done|].
  eapply refusal_secret; [done | right; eauto].
Qed.

(** The body of the callback after its guards. *)
Definition failure_page (err : thrown) : result response :=
  match err with
  | Err message _ =>
      Ok (Send 500 ("<h1>Token exchange failed</h1><p>" +:+ message +:+ "</p>"))
  | Val v =>
      match get_prop v "message" with
      | None => Throw (TypeError_read v "message")
      | Some m =>
          Ok (Send 500 ("<h1>Token exchange failed</h1><p>" +:+ ToString m +:+
                        "</p>"))
      end
  end.

Definition issued_token (cfg : config) (toks : google_tokens) : TokenConfig :=
  {| client_id := googleClientId cfg;
     client_secret := googleClientSecret cfg;
     refresh_token := ToString_env (tok_refresh_token toks) |}.

Definition exchange (cfg : config) (env : environment) (code : jsval)
  (st : WorkspaceAPI) : result response * WorkspaceAPI * list event :=
  match env_getToken env code with
  | Throw e => (failure_page e, st, [GetToken code])
  | Ok toks =>
      if truthy_str (tok_refresh_token toks) then
        match env_getProfile env toks with
        | Throw e =>
            (failure_page e, st,
             [GetToken code; GetProfile (tok_access_token toks)])
        | Ok email =>
            match saveToken env email (issued_token cfg toks) st with
            | (Ok _, st1, l) =>
                (Ok (Send 200 (success_page cfg email (getConfiguredAccounts st1))),
                 st1, [GetToken code; GetProfile (tok_access_token toks)] ++ l)
            | (Throw e, st1, l) =>
                (failure_page e, st1,
                 [GetToken code; GetProfile (tok_access_token toks)] ++ l)
            end
        end
      else (Ok (Send 400 no_refresh_token_page), st, [GetToken code])
  end.

Lemma oauth2callback_admitted cfg env query st :
  admitted cfg query = true ->
  oauth2callback cfg env query st = exchange cfg env (req_query query "code") st.
Proof.
  unfold admitted, oauth2callback, exchange. intros Hadm.
  destruct (truthy (req_query query "error")); [done|].
  destruct (truthy (req_query query "code")); [|done].
  destruct (truthy (req_query query "state")); [|done]. simpl in Hadm. simpl.
  destruct (JSON_parse _) as [parsed|]; [|done].
  unfold bind at 1.
  destruct (truthy_str (setupToken cfg)); [|done]. simpl in *.
  destruct (get_prop parsed "token") as [t|]; [|done]. simpl.
  rewrite Hadm. simpl.
  unfold try_catch, bind, await, this, ret, throw, failure_page, issued_token.
  destruct (env_getToken env _) as [toks|e]; simpl.
  2: { destruct e as [m ps|v]; simpl; [done|].
       by destruct (get_prop v "message"). }
  destruct (truthy_str (tok_refresh_token toks)); simpl; [|done].
  destruct (env_getProfile env toks) as [email|e]; simpl.
  2: { destruct e as [m ps|v]; simpl; [done|].
       by destruct (get_prop v "message"). }
  destruct (saveToken env email _ st) as [[[[]|e] st1] l1]; simpl.
  - by rewrite !app_nil_r.
  - destruct e as [m ps|v]; simpl; [by rewrite ?app_nil_r|].
    destruct (get_prop v "message"); by rewrite ?app_nil_r.
Qed.

(** The state parameter parses to a value whose [token] is the configured
    setup secret. *)
Definition state_carries_secret (cfg : config) (query : list (string * jsval))
  : Prop :=
  exists parsed secret,
    JSON_parse (ToString (req_query query "state")) = Some parsed
    /\ setupToken cfg = Some secret
    /\ get_prop parsed "token" = Some (VStr secret).

Lemma admitted_carries_secret cfg query :
  admitted cfg query = true -> state_carries_secret cfg query.
Proof.
  unfold admitted, state_carries_secret. intros Hadm.
  destruct (JSON_parse _) as [parsed|]; [|by rewrite andb_false_r in Hadm].
  apply andb_prop in Hadm as [_ Hadm]. apply andb_prop in Hadm as [Hs Hadm].
  destruct (get_prop parsed "token") as [t|] eqn:Hget; [|done].
  destruct (setupToken cfg) as [secret|]; [|done].
  destruct t; try done. simpl in Hadm. apply String.eqb_eq in Hadm. subst.
  eexists _, _. eauto.
Qed.

Lemma refusal_not_success cfg query r body :
  refusal cfg query r -> r <> Ok (Send 200 body).
Proof. by destruct 1. Qed.

Lemma failure_page_not_success err body :
  failure_page err <> Ok (Send 200 body).
Proof.
  destruct err as [m ps|v]; simpl; [done|]. by destruct (get_prop v "message").
Qed.

(** C3: when the state parameter does not parse, or the value it parses to
    does not carry the configured setup secret, the callback fails and
    leaves the instance as it was without any outside call (no code
    exchange, no profile request, no write of the token file): it answers
    400 or 403, or, when the state is the JSON text [null] and reading its
    [token] throws, the handler's promise rejects with that TypeError and
    the answer is left to the error handling of the web framework. In no
    case is the answer a success, whatever the code. *)
Theorem callback_fails_closed cfg env query st :
  ~ state_carries_secret cfg query ->
  exists r,
    oauth2callback cfg env query st = (r, st, [])
    /\ refusal cfg query r
    /\ ((exists body, r = Ok (Send 400 body))
        \/ r = Ok (Send 403 "<h1>Invalid setup token</h1>")
        \/ (exists parsed,
              JSON_parse (ToString (req_query query "state")) = Some parsed
              /\ get_prop parsed "token" = None
              /\ r = Throw (TypeError_read parsed "token")))
    /\ forall body, r <> Ok (Send 200 body).
Proof.
  intros Hno.
  destruct (admitted cfg query) eqn:Hadm.
  { destruct Hno. by apply admitted_carries_secret. }
  destruct (oauth2callback_refused cfg env query st Hadm) as (r & Hrun & Href).
  exists r. split; [done|]. split; [done|]. split.
  - destruct Href; eauto 10.
  - intros body. by eapply refusal_not_success.
Qed.

(** C4: when the callback reaches the exchange, the exchange succeeds and
    the tokens it yields hold no refresh token, the answer is the 400 page
    that tells the user to revoke the granted access and try again; the
    instance is as it was and the exchange is the only outside call, so
    nothing was saved. *)
Theorem callback_without_refresh_token cfg env query st toks :
  admitted cfg query = true ->
  env_getToken env (req_query query "code") = Ok toks ->
  truthy_str (tok_refresh_token toks) = false ->
  oauth2callback cfg env query st
  = (Ok (Send 400 no_refresh_token_page), st, [GetToken (req_query query "code")])
  /\ includes no_refresh_token_page "Revoke it at" = true
  /\ includes no_refresh_token_page "then try again" = true.
Proof.
  intros Hadm Htoks Hnone. split; [|by vm_compute].
  rewrite oauth2callback_admitted by done. unfold exchange.
  by rewrite Htoks, Hnone.
Qed.

(** C5: a callback that answers with success has stored the record under
    the e-mail address that the profile request, made with the tokens just
    obtained, returned; the account named in the state parameter plays no
    part, and no other key of the token map changed. *)
Theorem callback_stores_under_confirmed_email cfg env query st body st' l :
  oauth2callback cfg env query st = (Ok (Send 200 body), st', l) ->
  exists toks email,
    env_getToken env (req_query query "code") = Ok toks
    /\ env_getProfile env toks = Ok email
    /\ tokens st' = obj_set email (issued_token cfg toks) (tokens st)
    /\ assoc email (tokens st') = Some (issued_token cfg toks)
    /\ (forall k, k <> email -> assoc k (tokens st') = assoc k (tokens st))
    /\ WriteFileSync (tokensFile st) (token_file_data (tokens st')) ∈ l.
Proof.
  intros Hrun. destruct (admitted cfg query) eqn:Hadm.
  2: { destruct (oauth2callback_refused cfg env query st Hadm) as (r & Hr & Href).
       rewrite Hr in Hrun. injection Hrun as -> _ _.
       by apply refusal_not_success with (body := body) in Href. }
  rewrite oauth2callback_admitted in Hrun by done. unfold exchange in Hrun.
  destruct (env_getToken env _) as [toks|e] eqn:Htoks.
  2: { injection Hrun as Hf _ _. by apply failure_page_not_success in Hf. }
  destruct (truthy_str (tok_refresh_token toks)); [|done].
  destruct (env_getProfile env toks) as [email|e] eqn:Hemail.
  2: { injection Hrun as Hf _ _. by apply failure_page_not_success in Hf. }
  destruct (saveToken env email _ st) as [[[[]|e] st1] l1] eqn:Hsave.
  2: { injection Hrun as Hf _ _. by apply failure_page_not_success in Hf. }
  injection Hrun as _ <- <-.
  apply saveToken_ok in Hsave as [-> ->].
  exists toks, email. split; [done|]. split; [done|].
  change (tokens (drop_caches email
            (set_tokens (obj_set email (issued_token cfg toks)) st)))
    with (obj_set email (issued_token cfg toks) (tokens st)).
  split; [done|]. split; [apply assoc_obj_set_eq|]. split.
  - intros k Hk. by apply assoc_obj_set_ne.
  - do 2 apply list_elem_of_further.
    unfold saveToken_calls. apply elem_of_app. right.
    by apply list_elem_of_singleton.
Qed.

(** C10, amended: with no setup secret configured (unset or empty), every
    [GET /setup] is answered 403, and every [GET /oauth2callback] is refused
    without touching the instance or making an outside call: with 400 when
    it carries an [error] parameter, lacks the code or the state, or its
    state does not parse, and with 403 otherwise. *)
Theorem unconfigured_secret_refuses_all cfg :
  truthy_str (setupToken cfg) = false ->
  (forall query api,
     setup cfg query api
     = Json 403 (VObj [("error", VStr "Invalid or missing setup token")]))
  /\ forall env query st,
       oauth2callback cfg env query st =
       (Ok (if truthy (req_query query "error")
            then Send 400 ("<h1>Authorization failed</h1><p>" +:+
                           ToString (req_query query "error") +:+ "</p>")
            else if truthy (req_query query "code")
                    && truthy (req_query query "state")
            then match JSON_parse (ToString (req_query query "state")) with
                 | Some _ => Send 403 "<h1>Invalid setup token</h1>"
                 | None => Send 400 "<h1>Invalid state</h1>"
                 end
            else Send 400 "<h1>Missing code or state</h1>"), st, []).
Proof.
  intros Hoff. split.
  - intros query api. unfold setup. by rewrite Hoff.
  - intros env query st. unfold oauth2callback.
    destruct (truthy (req_query query "error")); [done|].
    destruct (truthy (req_query query "code")); [|done].
    destruct (truthy (req_query query "state")); [|done]. simpl.
    destruct (JSON_parse _); [|done].
    unfold bind at 1. by rewrite Hoff.
Qed.

(** An exchange is attempted exactly by the admitted callbacks. *)
Lemma exchange_iff_admitted cfg env query st code :
  GetToken code ∈ snd (oauth2callback cfg env query st)
  <-> admitted cfg query = true /\ code = req_query query "code".
Proof.
  destruct (admitted cfg query) eqn:Hadm.
  - rewrite oauth2callback_admitted by done. unfold exchange. split.
    + intros Hin. split; [done|].
      destruct (env_getToken env _) as [toks|e]; simpl in Hin.
      2: { apply list_elem_of_singleton in Hin. congruence. }
      destruct (truthy_str _); simpl in Hin.
      2: { apply list_elem_of_singleton in Hin. congruence. }
      destruct (env_getProfile env toks) as [email|e]; simpl in Hin.
      2: { apply elem_of_cons in Hin as [Hin|Hin]; [congruence|].
           by apply list_elem_of_singleton in Hin. }
      rewrite saveToken_unfold in Hin. cbv zeta in Hin.
      assert (Hhead : forall tl,
        (forall c, GetToken c ∉ tl) ->
        GetToken code ∈ GetToken (req_query query "code")
          :: GetProfile (tok_access_token toks) :: tl ->
        code = req_query query "code").
      { intros tl Htl H. apply elem_of_cons in H as [H|H]; [congruence|].
        apply elem_of_cons in H as [H|H]; [done|]. by apply Htl in H. }
      assert (Hmk : forall c, GetToken c ∉ [MkdirSync (parent_dir st)]).
      { intros c H. by apply list_elem_of_singleton in H. }
      assert (Hcalls : forall c tok, GetToken c ∉ saveToken_calls email tok st).
      { intros c tok H. unfold saveToken_calls in H.
        apply elem_of_app in H as [H|H].
        - destruct (truthy _); [by apply Hmk in H | by apply elem_of_nil in H].
        - by apply list_elem_of_singleton in H. }
      destruct (if truthy _ then _ else _); simpl in Hin;
        [exact (Hhead _ Hmk Hin)|].
      destruct (env_writeFileSync _ _ _); simpl in Hin;
        exact (Hhead _ (fun c => Hcalls c _) Hin).
    + intros [_ ->].
      destruct (env_getToken env _) as [toks|e]; simpl; [|by left].
      destruct (truthy_str _); simpl; [|by left].
      destruct (env_getProfile env toks) as [email|e]; simpl; [|by left].
      destruct (saveToken env email _ st) as [[[[]|e] st1] l1]; simpl; by left.
  - destruct (oauth2callback_refused cfg env query st Hadm) as (r & -> & _).
    simpl. split; [by intros H%elem_of_nil | by intros [[=] _]].
Qed.

(** ** Writing the token file *)

(** C6, amended: every write that [saveToken] makes goes straight to the
    token file and carries the whole updated map, pretty-printed; a call
    that returns made exactly one such write, preceded by the creation of
    the parent directory when the path has one. No temporary file is
    written and nothing is renamed. *)
Theorem saveToken_writes_in_place env email token st :
  (forall p data,
     WriteFileSync p data ∈ snd (saveToken env email token st) ->
     p = tokensFile st
     /\ data = JSON_stringify_pretty
                 (TokenMap_to_js (obj_set email token (tokens st))))
  /\ (fst (fst (saveToken env email token st)) = Ok tt ->
      snd (saveToken env email token st)
      = (if truthy (VStr (parent_dir st))
         then [MkdirSync (parent_dir st)] else [])
        ++ [WriteFileSync (tokensFile st)
              (JSON_stringify_pretty
                 (TokenMap_to_js (obj_set email token (tokens st))))]).
Proof.
  rewrite saveToken_unfold. cbv zeta.
  assert (Hcalls : forall p data,
    WriteFileSync p data ∈ saveToken_calls email token st ->
    p = tokensFile st
    /\ data = JSON_stringify_pretty
                (TokenMap_to_js (obj_set email token (tokens st)))).
  { intros p data H. unfold saveToken_calls in H.
    apply elem_of_app in H as [H|H].
    - destruct (truthy _); [|by apply elem_of_nil in H].
      by apply list_elem_of_singleton in H.
    - apply list_elem_of_singleton in H. by injection H as -> ->. }
  destruct (if truthy _ then _ else _); simpl.
  { split; [|done]. intros p data H. by apply list_elem_of_singleton in H. }
  destruct (env_writeFileSync _ _ _); simpl; split; done.
Qed.

(** ** What an upsert and a reload invalidate *)

(** C7, amended: a reload that reads the token file clears all five caches;
    a [saveToken] that returns removes from each of the five caches the
    entry of the saved identity only, and the entries of every other
    identity stay as they were. *)
Theorem invalidation_scope :
  (forall env st parsed,
     env_readTokens env (tokensFile st) = Some parsed ->
     loadTokens env st
     = (Ok tt, clear_caches (set_tokens (fun _ => parsed) st), [])
     /\ authClients (state_after (loadTokens env) st) = ∅
     /\ forall kind, clients kind (state_after (loadTokens env) st) = ∅)
  /\ (forall env email token st st1 l,
        saveToken env email token st = (Ok tt, st1, l) ->
        authClients st1 = delete email (authClients st)
        /\ (forall kind, clients kind st1 = delete email (clients kind st))
        /\ forall k : string, k <> email ->
             authClients st1 !! k = authClients st !! k
             /\ forall kind, clients kind st1 !! k = clients kind st !! k).
Proof.
  split.
  - intros env st parsed Hread. unfold state_after.
    rewrite loadTokens_unfold, Hread. split; [done|]. split; [done|].
    intros kind. by destruct kind.
  - intros env email token st st1 l Hsave.
    apply saveToken_ok in Hsave as [-> _]. split; [done|]. split.
    + intros kind. by destruct kind.
    + intros k Hk. split; [simpl; by apply lookup_delete_ne|].
      intros kind. rewrite clients_drop_caches, clients_set_tokens.
      by apply lookup_delete_ne.
Qed.

(** ** Translating a 401 *)

(** The upstream error carries the HTTP status [n]. *)
Definition carries_status (e : thrown) (n : Z) : Prop :=
  exists resp, response_of e = Some resp /\ get_opt resp "status" = VNum n.

(** The text handed to the caller of the tool when the request made for
    [account] fails with [e]. *)
Definition translated_for (account : string) (mode : service_kind) (e : thrown)
  (st : WorkspaceAPI) : result string :=
  fst (fst (toolHandler account mode (fun _ => Throw e) st)).

Lemma toolHandler_operation_error account mode operation st client st1 l e :
  service mode account st = (Ok client, st1, l) ->
  operation client = Throw e ->
  toolHandler account mode operation st
  = (Ok (JSON_stringify (VObj [("error", VStr (handleApiError e))])), st1, l).
Proof. intros Hsvc Hop. unfold toolHandler. by rewrite Hsvc, Hop. Qed.

(** C8, amended: an upstream error with status 401 is translated to one
    text, whichever identity the request was made for: the fixed sentence
    that names both the remediation for the delegated identity and the one
    for the OAuth identities, followed by the upstream message. *)
Theorem unauthorized_message_is_shared e resp :
  response_of e = Some resp ->
  get_opt resp "status" = VNum 401 ->
  handleApiError e = AUTH_FAILED +:+ upstream_message (get_opt resp "data")
  /\ includes AUTH_FAILED
       "For nick@outliyr.com: verify domain-wide delegation." = true
  /\ includes AUTH_FAILED
       "For Gmail accounts: refresh token may be revoked, re-run generate-token."
     = true
  /\ forall account mode st client st1 l,
       service mode account st = (Ok client, st1, l) ->
       translated_for account mode e st
       = Ok (JSON_stringify
               (VObj [("error",
                       VStr (AUTH_FAILED +:+
                             upstream_message (get_opt resp "data")))])).
Proof.
  intros Hresp Hstatus.
  assert (Hmsg : handleApiError e
                 = AUTH_FAILED +:+ upstream_message (get_opt resp "data")).
  { unfold handleApiError. by rewrite Hresp, Hstatus. }
  split; [done|]. split; [by vm_compute|]. split; [by vm_compute|].
  intros account mode st client st1 l Hsvc. unfold translated_for.
  rewrite (toolHandler_operation_error _ _ _ _ client st1 l e) by done.
  simpl. by rewrite Hmsg.
Qed.

(** ** Further properties of the broker *)

(** X1: a getter that has returned a client returns that very client again,
    without allocating or changing anything, when called again with nothing
    in between; neither call reaches outside the process. *)
Theorem getter_returns_cached_handle k account st c st1 l :
  service k account st = (Ok c, st1, l) ->
  l = [] /\ service k account st1 = (Ok c, st1, []).
Proof.
  rewrite service_unfold.
  destruct (clients k st !! account) as [c0|] eqn:Hcached.
  - intros [= -> <- <-]. split; [done|]. by rewrite service_unfold, Hcached.
  - destruct (auth account st) as [[[a|e] st0] l0] eqn:Hauth; [|done].
    apply auth_cases in Hauth as [-> _]. cbv zeta. intros [= <- <- <-].
    split; [done|]. rewrite service_unfold, clients_set_clients.
    rewrite bool_decide_eq_true_2 by done. by rewrite lookup_insert_eq.
Qed.

Lemma existsb_eqb_elem_of (a : string) (l : list string) :
  existsb (String.eqb a) l = true <-> a ∈ l.
Proof.
  rewrite existsb_exists. split.
  - intros (x & Hin & Heq). apply String.eqb_eq in Heq. subst x.
    by apply list_elem_of_In.
  - intros Hin. exists a. split; [by apply list_elem_of_In|].
    apply String.eqb_refl.
Qed.

Lemma getConfiguredAccounts_fold keys : forall acc : list string,
  NoDup acc ->
  let r := fold_left (fun accounts email =>
             if existsb (String.eqb email) accounts then accounts
             else accounts ++ [email]) keys acc in
  NoDup r
  /\ (exists suffix, r = acc ++ suffix)
  /\ forall a, a ∈ r <-> a ∈ acc \/ a ∈ keys.
Proof.
  induction keys as [|k keys IH]; intros acc Hnd; simpl.
  - split; [done|]. split; [exists []; by rewrite app_nil_r|].
    intros a. rewrite elem_of_nil. tauto.
  - destruct (existsb (String.eqb k) acc) eqn:E.
    + apply existsb_eqb_elem_of in E.
      destruct (IH acc Hnd) as (Hnd' & Hsuf & Hmem).
      split; [done|]. split; [done|].
      intros a. rewrite Hmem, elem_of_cons.
      split; [tauto|]. intros [H|[->|H]]; tauto.
    + assert (Hk : k ∉ acc).
      { intros Hin. apply existsb_eqb_elem_of in Hin. congruence. }
      assert (Hnd1 : NoDup (acc ++ [k])).
      { apply NoDup_app. split; [done|]. split; [|apply NoDup_singleton].
        intros x Hx Hx'. apply list_elem_of_singleton in Hx'. by subst. }
      destruct (IH (acc ++ [k]) Hnd1) as (Hnd' & [suffix Hsuf] & Hmem).
      split; [done|]. split.
      * exists (k :: suffix). rewrite Hsuf. by rewrite <- app_assoc.
      * intros a. rewrite Hmem, elem_of_app, list_elem_of_singleton, elem_of_cons.
        tauto.
Qed.

(** X2: [getConfiguredAccounts] lists the delegated identity first, then
    identities of the token map, each identity once, and it lists exactly
    the delegated identity and the keys of the token map. *)
Theorem configured_accounts_listing st :
  (exists rest, getConfiguredAccounts st = WORKSPACE_ACCOUNT :: rest)
  /\ NoDup (getConfiguredAccounts st)
  /\ forall a, a ∈ getConfiguredAccounts st
               <-> a = WORKSPACE_ACCOUNT \/ a ∈ Object_keys (tokens st).
Proof.
  destruct (getConfiguredAccounts_fold (Object_keys (tokens st))
              [WORKSPACE_ACCOUNT]) as (Hnd & [suffix Hsuf] & Hmem).
  { apply NoDup_singleton. }
  split; [by exists suffix|]. split; [done|].
  intros a. unfold getConfiguredAccounts. rewrite Hmem.
  by rewrite list_elem_of_singleton.
Qed.

(** X3: an upstream error with status 429 is translated to the rate-limit
    text, whatever its body. *)
Theorem rate_limit_message e resp :
  response_of e = Some resp ->
  get_opt resp "status" = VNum 429 ->
  handleApiError e = "Rate limited. Wait and try again.".
Proof.
  intros Hresp Hstatus. unfold handleApiError. by rewrite Hresp, Hstatus.
Qed.

(** ** The claims that the code does not meet, in the specification's words *)

(** C6 as stated: the write of every [saveToken] goes to a temporary
    location (to be renamed onto the token file afterwards). *)
Definition saveToken_writes_atomically : Prop :=
  forall env email token st,
    writes_via_temporary (tokensFile st) (snd (saveToken env email token st)).

(** C7 as stated, for the upsert: after [saveToken] every cache is empty. *)
Definition saveToken_invalidates_wholesale : Prop :=
  forall env email token st st1 l,
    reachable st ->
    saveToken env email token st = (Ok tt, st1, l) ->
    authClients st1 = ∅ /\ forall kind, clients kind st1 = ∅.

(** C8 as stated: the text for a 401 met on behalf of the delegated identity
    differs from the text for a 401 met on behalf of an OAuth identity. *)
Definition unauthorized_message_differs : Prop :=
  forall oauth mode st e1 e2 text1 text2,
    isAllowedAccount oauth = true -> oauth <> WORKSPACE_ACCOUNT ->
    carries_status e1 401 -> carries_status e2 401 ->
    translated_for WORKSPACE_ACCOUNT mode e1 st = Ok text1 ->
    translated_for oauth mode e2 st = Ok text2 ->
    text1 <> text2.

(** C10 as stated, for the callback: with no setup secret configured, a
    request whose state parses is answered 403. *)
Definition unconfigured_callback_is_403 : Prop :=
  forall cfg env query st parsed,
    setupToken cfg = None ->
    JSON_parse (ToString (req_query query "state")) = Some parsed ->
    exists body,
      fst (fst (oauth2callback cfg env query st)) = Ok (Send 403 body).

End Properties.

(** * The properties at concrete inputs *)

Definition mallory : string := "mallory@example.com".
Definition affiliate : string := "iamnickurban@gmail.com".

Definition old_record : TokenConfig :=
  {| client_id := "client-id"; client_secret := "client-secret";
     refresh_token := "1//old" |}.
Definition new_record : TokenConfig :=
  {| client_id := "client-id"; client_secret := "client-secret";
     refresh_token := "1//new" |}.

(** Every outside call succeeds; the exchange yields a refresh token and the
    profile names [mallory]. *)
Definition world : environment :=
  sample_env (sample_tokens (Some "1//new")) mallory.

(** The exchange succeeds without a refresh token. *)
Definition world_no_refresh : environment :=
  sample_env (sample_tokens None) mallory.

(** A broker that holds [old_record] for [affiliate] and has served the Gmail
    client of the delegated identity and of [affiliate]. *)
Definition warm_api : WorkspaceAPI :=
  run (runtime := sample_runtime) (OpService Gmail affiliate)
    (run (runtime := sample_runtime) (OpService Gmail WORKSPACE_ACCOUNT)
      (run (runtime := sample_runtime) (OpSaveToken world affiliate old_record)
         sample_api)).

Lemma warm_api_reachable : reachable (runtime := sample_runtime) warm_api.
Proof. unfold warm_api. do 3 apply reachable_run. apply reachable_new. Qed.

(** A callback request whose state names [affiliate] and carries [secret]. *)
Definition callback_query (stateRaw : string) : list (string * jsval) :=
  [("code", VStr "4/abc"); ("state", VStr stateRaw)].

Definition good_state : string :=
  sample_stringify (sample_state affiliate "s3cret").

Definition unauthorized : thrown :=
  Err "Request failed with status code 401"
    [("response",
      VObj [("status", VNum 401);
            ("data", VObj [("error",
                            VObj [("message", VStr "Invalid Credentials")])])])].

Lemma outsider_is_rejected_witness :
  isAllowedAccount mallory = false
  /\ let st := run (runtime := sample_runtime)
                 (OpSaveToken world mallory new_record) warm_api in
     assoc mallory (tokens st) = Some new_record
     /\ auth mallory st
        = (Throw (Err ("Account not allowed: " +:+ mallory) []), st, [])
     /\ forall k,
          service k mallory st
          = (Throw (Err ("Account not allowed: " +:+ mallory) []), st, []).
Proof.
  split; [reflexivity|]. intros st.
  pose proof (outsider_is_rejected (runtime := sample_runtime) mallory st
                eq_refl) as (Hauth & _ & Hsvc).
  split; [by vm_compute|]. split; [exact Hauth|].
  apply Hsvc. apply reachable_run, warm_api_reachable.
Defined.

Lemma auth_after_saveToken_witness :
  let st1 := run (runtime := sample_runtime)
               (OpSaveToken world affiliate new_record) warm_api in
  isAllowedAccount affiliate = true
  /\ affiliate <> WORKSPACE_ACCOUNT
  /\ (exists c0, authClients warm_api !! affiliate = Some c0
                 /\ cred_obj c0 = OAuth2Client "client-id" "client-secret" "1//old")
  /\ saveToken (runtime := sample_runtime) world affiliate new_record warm_api
     = (Ok tt, st1,
        [MkdirSync "/app/credentials";
         WriteFileSync "/app/credentials/gmail-tokens.json"
           (sample_stringify
              (TokenMap_to_js [(affiliate, new_record)]))])
  /\ authClients st1 !! affiliate = None
  /\ fst (fst (auth affiliate st1))
     = Ok {| cred_ref := 4;
             cred_obj := OAuth2Client "client-id" "client-secret" "1//new" |}
  /\ forall (k : string) c0,
       authClients warm_api !! k = Some c0 ->
       c0 <> {| cred_ref := 4;
                cred_obj := OAuth2Client "client-id" "client-secret" "1//new" |}.
Proof.
  intros st1.
  assert (Hsave : saveToken (runtime := sample_runtime) world affiliate
                    new_record warm_api
                  = (Ok tt, st1,
                     [MkdirSync "/app/credentials";
                      WriteFileSync "/app/credentials/gmail-tokens.json"
                        (sample_stringify
                           (TokenMap_to_js [(affiliate, new_record)]))]))
    by (vm_compute; reflexivity).
  assert (Hne : affiliate <> WORKSPACE_ACCOUNT) by discriminate.
  pose proof (auth_after_saveToken (runtime := sample_runtime) world affiliate
                new_record warm_api st1 _ eq_refl Hne Hsave)
    as (Hnone & Hauth & Hfresh).
  split; [reflexivity|]. split; [exact Hne|]. split.
  { eexists. split; vm_compute; reflexivity. }
  split; [exact Hsave|]. split; [exact Hnone|]. split.
  - rewrite Hauth. reflexivity.
  - exact (Hfresh warm_api_reachable).
Defined.

Lemma cached_identities_are_allowed_witness :
  reachable (runtime := sample_runtime) warm_api
  /\ (forall k : string,
        is_Some (authClients warm_api !! k) -> k ∈ ALLOWED_ACCOUNTS)
  /\ let st' := run (runtime := sample_runtime)
                  (OpSaveToken world mallory new_record) warm_api in
     assoc mallory (tokens st') = Some new_record
     /\ mallory ∈ getConfiguredAccounts st'
     /\ authClients st' !! mallory = None.
Proof.
  pose proof (cached_identities_are_allowed (runtime := sample_runtime)
                warm_api warm_api_reachable) as [[Ha _] Hsave].
  split; [exact warm_api_reachable|]. split; [exact Ha|].
  destruct (Hsave world mallory new_record) as (_ & Htok & Hlist & Hout).
  split; [exact Htok|]. split; [exact Hlist|]. exact (proj1 (Hout eq_refl)).
Defined.

Lemma callback_fails_closed_witness :
  let cfg := sample_config (Some "s3cret") in
  let query := callback_query "{}" in
  ~ state_carries_secret (runtime := sample_runtime) cfg query
  /\ oauth2callback (runtime := sample_runtime) cfg world query warm_api
     = (Ok (Send 403 "<h1>Invalid setup token</h1>"), warm_api, []).
Proof.
  intros cfg query.
  assert (Hno : ~ state_carries_secret (runtime := sample_runtime) cfg query).
  { intros (parsed & secret & Hparse & Hsecret & Htoken).
    vm_compute in Hparse. injection Hparse as <-. discriminate Htoken. }
  split; [exact Hno|].
  destruct (callback_fails_closed (runtime := sample_runtime) cfg world query
              warm_api Hno) as (r & Hrun & _).
  rewrite Hrun. f_equal. f_equal.
  assert (Hr : fst (fst (oauth2callback (runtime := sample_runtime) cfg world
                           query warm_api))
               = Ok (Send 403 "<h1>Invalid setup token</h1>"))
    by (vm_compute; reflexivity).
  rewrite Hrun in Hr. exact Hr.
Defined.

Lemma callback_without_refresh_token_witness :
  let cfg := sample_config (Some "s3cret") in
  let query := callback_query good_state in
  admitted (runtime := sample_runtime) cfg query = true
  /\ env_getToken world_no_refresh (req_query query "code")
     = Ok (sample_tokens None)
  /\ oauth2callback (runtime := sample_runtime) cfg world_no_refresh query
       warm_api
     = (Ok (Send 400 no_refresh_token_page), warm_api, [GetToken (VStr "4/abc")]).
Proof.
  intros cfg query.
  assert (Hadm : admitted (runtime := sample_runtime) cfg query = true)
    by (vm_compute; reflexivity).
  split; [exact Hadm|]. split; [reflexivity|].
  exact (proj1 (callback_without_refresh_token (runtime := sample_runtime) cfg
                  world_no_refresh query warm_api (sample_tokens None)
                  Hadm eq_refl eq_refl)).
Defined.

(** The state names [affiliate]; the profile of the authorized account says
    [mallory]; the record is stored under [mallory]. *)
Lemma callback_stores_under_confirmed_email_witness :
  let cfg := sample_config (Some "s3cret") in
  let query := callback_query good_state in
  let run := oauth2callback (runtime := sample_runtime) cfg world query
               sample_api in
  JSON_parse (Runtime := sample_runtime) good_state
    = Some (sample_state affiliate "s3cret")
  /\ env_getProfile world (sample_tokens (Some "1//new")) = Ok mallory
  /\ fst (fst run)
     = Ok (Send 200 (success_page (runtime := sample_runtime) cfg mallory
                       [WORKSPACE_ACCOUNT; mallory]))
  /\ tokens (snd (fst run)) = [(mallory, new_record)]
  /\ assoc affiliate (tokens (snd (fst run))) = None.
Proof.
  intros cfg query run.
  assert (Hrun : run = (Ok (Send 200 (success_page (runtime := sample_runtime)
                                        cfg mallory [WORKSPACE_ACCOUNT; mallory])),
                        snd (fst run), snd run))
    by (vm_compute; reflexivity).
  destruct (callback_stores_under_confirmed_email (runtime := sample_runtime)
              cfg world query sample_api _ _ _ Hrun)
    as (toks & email & Htoks & Hemail & Htokens & _ & Hother & _).
  injection Htoks as <-. injection Hemail as <-.
  split; [by vm_compute|]. split; [reflexivity|].
  split; [by rewrite Hrun|]. split; [exact Htokens|].
  rewrite (Hother affiliate) by discriminate. reflexivity.
Defined.

Lemma unconfigured_secret_refuses_all_witness :
  truthy_str (setupToken (sample_config None)) = false
  /\ setup (runtime := sample_runtime) (sample_config None)
       [("token", VStr "undefined"); ("account", VStr affiliate)] warm_api
     = Json 403 (VObj [("error", VStr "Invalid or missing setup token")])
  /\ oauth2callback (runtime := sample_runtime) (sample_config None) world
       (callback_query good_state) warm_api
     = (Ok (Send 403 "<h1>Invalid setup token</h1>"), warm_api, []).
Proof.
  pose proof (unconfigured_secret_refuses_all (runtime := sample_runtime)
                (sample_config None) eq_refl) as [Hsetup Hcallback].
  split; [reflexivity|]. split; [apply Hsetup|].
  rewrite Hcallback. reflexivity.
Defined.

Lemma invalidation_scope_witness :
  let st1 := run (runtime := sample_runtime)
               (OpSaveToken world affiliate new_record) warm_api in
  saveToken (runtime := sample_runtime) world affiliate new_record warm_api
    = (Ok tt, st1, snd (saveToken (runtime := sample_runtime) world affiliate
                          new_record warm_api))
  /\ authClients st1 = delete affiliate (authClients warm_api)
  /\ authClients st1 !! WORKSPACE_ACCOUNT = authClients warm_api !! WORKSPACE_ACCOUNT.
Proof.
  intros st1.
  assert (Hsave : saveToken (runtime := sample_runtime) world affiliate
                    new_record warm_api
                  = (Ok tt, st1, snd (saveToken (runtime := sample_runtime)
                                        world affiliate new_record warm_api)))
    by (vm_compute; reflexivity).
  destruct (proj2 (invalidation_scope (runtime := sample_runtime)) _ _ _ _ _ _
              Hsave) as (Hauth & _ & Hothers).
  split; [exact Hsave|]. split; [exact Hauth|].
  apply (Hothers WORKSPACE_ACCOUNT). discriminate.
Defined.

Definition unauthorized_response : jsval :=
  VObj [("status", VNum 401);
        ("data", VObj [("error",
                        VObj [("message", VStr "Invalid Credentials")])])].

Lemma unauthorized_message_is_shared_witness :
  response_of unauthorized = Some unauthorized_response
  /\ get_opt unauthorized_response "status" = VNum 401
  /\ handleApiError (runtime := sample_runtime) unauthorized
     = AUTH_FAILED +:+ "Invalid Credentials"
  /\ translated_for (runtime := sample_runtime) WORKSPACE_ACCOUNT Gmail
       unauthorized warm_api
     = Ok (sample_stringify
             (VObj [("error", VStr (AUTH_FAILED +:+ "Invalid Credentials"))]))
  /\ translated_for (runtime := sample_runtime) affiliate Gmail
       unauthorized warm_api
     = Ok (sample_stringify
             (VObj [("error", VStr (AUTH_FAILED +:+ "Invalid Credentials"))])).
Proof.
  destruct (unauthorized_message_is_shared (runtime := sample_runtime)
              unauthorized unauthorized_response eq_refl eq_refl)
    as (Hmsg & _ & _ & Hfor).
  split; [reflexivity|]. split; [reflexivity|]. split; [exact Hmsg|].
  split; eapply Hfor; vm_compute; reflexivity.
Defined.

(** * Where the code departs from the specification *)

(** C6, counterexample: the one write of a [saveToken] targets the token
    file itself. *)
Lemma saveToken_writes_token_file_directly :
  tokensFile sample_api = "/app/credentials/gmail-tokens.json"
  /\ snd (saveToken (runtime := sample_runtime) world affiliate new_record
            sample_api)
     = [MkdirSync "/app/credentials";
        WriteFileSync "/app/credentials/gmail-tokens.json"
          (sample_stringify (TokenMap_to_js [(affiliate, new_record)]))]
  /\ ~ saveToken_writes_atomically (runtime := sample_runtime).
Proof.
  assert (Hlog : snd (saveToken (runtime := sample_runtime) world affiliate
                        new_record sample_api)
                 = [MkdirSync "/app/credentials";
                    WriteFileSync "/app/credentials/gmail-tokens.json"
                      (sample_stringify
                         (TokenMap_to_js [(affiliate, new_record)]))])
    by (vm_compute; reflexivity).
  split; [reflexivity|]. split; [exact Hlog|].
  intros Hatomic.
  apply (Hatomic world affiliate new_record sample_api
           "/app/credentials/gmail-tokens.json"
           (sample_stringify (TokenMap_to_js [(affiliate, new_record)])));
    [|reflexivity].
  rewrite Hlog. apply list_elem_of_further, list_elem_of_here.
Qed.

(** C7, counterexample: after a token is saved for [affiliate], the
    credential and the Gmail client of the delegated identity are still
    cached. *)
Lemma saveToken_keeps_other_identities_cached :
  let st1 := run (runtime := sample_runtime)
               (OpSaveToken world affiliate new_record) warm_api in
  fst (fst (saveToken (runtime := sample_runtime) world affiliate new_record
              warm_api)) = Ok tt
  /\ authClients st1 !! WORKSPACE_ACCOUNT
     = Some {| cred_ref := 0;
               cred_obj := JWT "/app/credentials/google-sa.json" SCOPES
                             WORKSPACE_ACCOUNT |}
  /\ is_Some (gmailClients st1 !! WORKSPACE_ACCOUNT)
  /\ ~ saveToken_invalidates_wholesale (runtime := sample_runtime).
Proof.
  intros st1.
  assert (Hcached : authClients st1 !! WORKSPACE_ACCOUNT
                    = Some {| cred_ref := 0;
                              cred_obj := JWT "/app/credentials/google-sa.json"
                                            SCOPES WORKSPACE_ACCOUNT |})
    by (vm_compute; reflexivity).
  split; [by vm_compute|]. split; [exact Hcached|]. split.
  { vm_compute. eexists. reflexivity. }
  intros Hall.
  destruct (Hall world affiliate new_record warm_api st1
              (snd (saveToken (runtime := sample_runtime) world affiliate
                      new_record warm_api)) warm_api_reachable)
    as [Hempty _]; [vm_compute; reflexivity|].
  rewrite Hempty in Hcached. discriminate Hcached.
Qed.

(** C8, counterexample: the same 401 is translated to the same text for the
    delegated identity and for an OAuth identity. *)
Lemma unauthorized_message_is_identical :
  translated_for (runtime := sample_runtime) WORKSPACE_ACCOUNT Gmail
    unauthorized warm_api
  = translated_for (runtime := sample_runtime) affiliate Gmail
      unauthorized warm_api
  /\ ~ unauthorized_message_differs (runtime := sample_runtime).
Proof.
  split; [by vm_compute|]. intros Hdiffer.
  assert (Hst : carries_status unauthorized 401).
  { eexists. split; reflexivity. }
  eapply (Hdiffer affiliate Gmail warm_api unauthorized unauthorized);
    [reflexivity | discriminate | exact Hst | exact Hst | | | reflexivity];
    vm_compute; reflexivity.
Qed.

(** C10, counterexample: no setup secret is configured and the state parses,
    but the request carries an [error] parameter (as the provider sends it
    when consent is denied): the answer is 400. *)
Lemma unconfigured_callback_answers_400 :
  let query := [("error", VStr "access_denied"); ("state", VStr "{}")] in
  setupToken (sample_config None) = None
  /\ JSON_parse (Runtime := sample_runtime) (ToString (req_query query "state"))
     = Some (VObj [])
  /\ oauth2callback (runtime := sample_runtime) (sample_config None) world
       query warm_api
     = (Ok (Send 400 "<h1>Authorization failed</h1><p>access_denied</p>"),
        warm_api, [])
  /\ ~ unconfigured_callback_is_403 (runtime := sample_runtime).
Proof.
  intros query.
  assert (Hrun : oauth2callback (runtime := sample_runtime) (sample_config None)
                   world query warm_api
                 = (Ok (Send 400
                          "<h1>Authorization failed</h1><p>access_denied</p>"),
                    warm_api, [])) by reflexivity.
  split; [reflexivity|]. split; [by vm_compute|]. split; [exact Hrun|].
  intros H403.
  destruct (H403 (sample_config None) world query warm_api (VObj []) eq_refl)
    as [body Hbody]; [by vm_compute|].
  rewrite Hrun in Hbody. discriminate Hbody.
Qed.

(** A state that parses to [null] while a setup secret is configured: the
    comparison [state.token !== setupToken] stands outside both [try]
    blocks, so reading [token] of [null] throws out of the async handler.
    Nothing is exchanged or saved. *)
Example callback_null_state_throws :
  JSON_parse (Runtime := sample_runtime) "null" = Some VNull
  /\ oauth2callback (runtime := sample_runtime) (sample_config (Some "s3cret"))
       world (callback_query "null") warm_api
     = (Throw (Err "Cannot read properties of null (reading 'token')" []),
        warm_api, []).
Proof. split; reflexivity. Qed.

(** * Further examples *)

Lemma getter_returns_cached_handle_witness :
  let st := run (runtime := sample_runtime)
              (OpSaveToken world affiliate new_record) sample_api in
  let c := {| svc_ref := 1; svc_kind := Drive; svc_version := "v3";
              svc_auth := {| cred_ref := 0;
                             cred_obj := OAuth2Client "client-id"
                                           "client-secret" "1//new" |} |} in
  fst (fst (service Drive affiliate st)) = Ok c
  /\ service Drive affiliate (snd (fst (service Drive affiliate st)))
     = (Ok c, snd (fst (service Drive affiliate st)), []).
Proof.
  intros st c.
  assert (Hfirst : service Drive affiliate st
                   = (Ok c, snd (fst (service Drive affiliate st)), []))
    by (vm_compute; reflexivity).
  split; [by rewrite Hfirst|].
  exact (proj2 (getter_returns_cached_handle Drive affiliate st c _ _ Hfirst)).
Defined.

Definition rate_limited : thrown :=
  Err "Request failed with status code 429"
    [("response", VObj [("status", VNum 429); ("data", VStr "quota exceeded")])].

Lemma rate_limit_message_witness :
  response_of rate_limited
    = Some (VObj [("status", VNum 429); ("data", VStr "quota exceeded")])
  /\ handleApiError (runtime := sample_runtime) rate_limited
     = "Rate limited. Wait and try again.".
Proof.
  split; [reflexivity|].
  exact (rate_limit_message (runtime := sample_runtime) rate_limited _
           eq_refl eq_refl).
Defined.

(** A state that does not parse is answered 400. *)
Example callback_unparseable_state :
  oauth2callback (runtime := sample_runtime) (sample_config (Some "s3cret"))
    world (callback_query "not json") warm_api
  = (Ok (Send 400 "<h1>Invalid state</h1>"), warm_api, []).
Proof. reflexivity. Qed.

(** A missing credential is translated to the pointer to [/setup]. *)
Example missing_credential_message :
  translated_for (runtime := sample_runtime) affiliate Gmail unauthorized
    sample_api
  = Ok (sample_stringify
          (VObj [("error",
                  VStr ("No refresh token for iamnickurban@gmail.com. " +:+
                        "Run the token generation script: npm run generate-token" +:+
                        ". Visit /setup on the server to authorize."))])).
Proof. vm_compute. reflexivity. Qed.

(** The listing of a broker holding a record for an outsider. *)
Example configured_accounts_example :
  getConfiguredAccounts
    (run (runtime := sample_runtime) (OpSaveToken world mallory new_record)
       warm_api)
  = [WORKSPACE_ACCOUNT; affiliate; mallory].
Proof. vm_compute. reflexivity. Qed.

(** * More of the broker: how credentials and clients hang together *)

Section Broker.

Context {runtime : Runtime}.

(** What [auth] builds for an account on a cache miss: the service-account
    credential for the delegated identity, an OAuth2 client from the stored
    record for any other; [None] when that record is missing. *)
Definition credential_source (st : WorkspaceAPI) (account : string)
  : option auth_object :=
  if String.eqb account WORKSPACE_ACCOUNT
  then Some (JWT (keyFile st) SCOPES account)
  else (fun tc => OAuth2Client (client_id tc) (client_secret tc)
                    (refresh_token tc)) <$> assoc account (tokens st).

Definition missing_credential (account : string) : thrown :=
  Err ("No refresh token for " +:+ account +:+
       ". Run the token generation script: npm run generate-token") [].

Lemma auth_by_source account st :
  auth account st =
  if isAllowedAccount account then
    match authClients st !! account with
    | Some client => (Ok client, st, [])
    | None =>
        match credential_source st account with
        | Some o =>
            let c := {| cred_ref := next_ref st; cred_obj := o |} in
            (Ok c, set_authClients (insert account c) (bump_ref st), [])
        | None => (Throw (missing_credential account), st, [])
        end
    end
  else (Throw (Err ("Account not allowed: " +:+ account) []), st, []).
Proof.
  rewrite auth_unfold. unfold credential_source, missing_credential.
  destruct (isAllowedAccount account); [|done].
  destruct (authClients st !! account); [done|].
  destruct (String.eqb account WORKSPACE_ACCOUNT); [done|].
  by destruct (assoc account (tokens st)).
Qed.

(** After a successful [auth] the credential is the cached one. *)
Lemma auth_ok_cached account st c st1 l :
  auth account st = (Ok c, st1, l) ->
  authClients st1 !! account = Some c
  /\ forall kind, clients kind st1 = clients kind st.
Proof.
  rewrite auth_by_source. destruct (isAllowedAccount account); [|done].
  destruct (authClients st !! account) as [c0|] eqn:Hc.
  - intros [= <- <- <-]. by split.
  - destruct (credential_source st account); [|done].
    intros [= <- <- <-]. split; [simpl; apply lookup_insert_eq|].
    intros kind. by rewrite clients_set_authClients, clients_bump_ref.
Qed.

Section StrongInvariant.

(** As [preserved_reachable], for properties that need to know what is
    cached: a credential is cached only for an allowed account that had
    none, and is what [credential_source] says; a client is cached only
    over the credential cached for its account. *)
Variable P : WorkspaceAPI -> Prop.
Hypothesis P_set_tokens : forall f st, P st -> P (set_tokens f st).
Hypothesis P_drop : forall email st, P st -> P (drop_caches email st).
Hypothesis P_clear : forall st, P st -> P (clear_caches st).
Hypothesis P_cache_credential : forall account o st,
  P st -> isAllowedAccount account = true ->
  authClients st !! account = None ->
  credential_source st account = Some o ->
  P (set_authClients
       (insert account {| cred_ref := next_ref st; cred_obj := o |})
       (bump_ref st)).
Hypothesis P_cache_client : forall k account a st,
  P st -> authClients st !! account = Some a ->
  clients k st !! account = None ->
  P (set_clients k
       (insert account {| svc_ref := next_ref st; svc_kind := k;
                          svc_version := version_of k; svc_auth := a |})
       (bump_ref st)).
Hypothesis P_fresh : forall keyFile tokensFile,
  P {| keyFile := keyFile; tokensFile := tokensFile; tokens := [];
       authClients := ∅; gmailClients := ∅; calendarClients := ∅;
       driveClients := ∅; peopleClients := ∅; next_ref := 0 |}.

Lemma strong_auth account st : P st -> P (state_after (auth account) st).
Proof.
  intros HP. unfold state_after. rewrite auth_by_source.
  destruct (isAllowedAccount account) eqn:Hallowed; [|done].
  destruct (authClients st !! account) eqn:Hc; [done|].
  destruct (credential_source st account) eqn:Hsrc; [|done].
  simpl. by apply P_cache_credential.
Qed.

Lemma strong_service k account st :
  P st -> P (state_after (service k account) st).
Proof.
  intros HP. unfold state_after. rewrite service_unfold.
  destruct (clients k st !! account) eqn:Hclient; [done|].
  pose proof (strong_auth account st HP) as HP1. unfold state_after in HP1.
  destruct (auth account st) as [[[a|e] st1] l] eqn:Hauth; simpl in *; [|done].
  apply auth_ok_cached in Hauth as [Hcached Hsame].
  apply P_cache_client; [done | done | by rewrite Hsame].
Qed.

Lemma strong_run o st : P st -> P (run o st).
Proof.
  intros HP. destruct o as [env|env email token|k account|cfg env query]; simpl.
  - by apply preserved_loadTokens.
  - by apply preserved_saveToken.
  - by apply strong_service.
  - destruct (oauth2callback_state cfg env query st) as [-> | (e & t & ->)];
      [done | by apply preserved_saveToken].
Qed.

Lemma strong_reachable st : reachable st -> P st.
Proof.
  induction 1 as [env kf tf | o st _ IH].
  - unfold new_WorkspaceAPI. apply (preserved_loadTokens P); auto.
  - by apply strong_run.
Qed.

End StrongInvariant.

(** Every cached service client is of the kind and API version of its cache
    and is bound to the credential cached for its account. *)
Definition clients_bound (st : WorkspaceAPI) : Prop :=
  forall kind (a : string) c,
    clients kind st !! a = Some c ->
    authClients st !! a = Some (svc_auth c)
    /\ svc_kind c = kind /\ svc_version c = version_of kind.

Lemma reachable_clients_bound st : reachable st -> clients_bound st.
Proof.
  apply strong_reachable; unfold clients_bound.
  - intros f s Hb kind a c. rewrite clients_set_tokens. apply Hb.
  - intros email s Hb kind a c. rewrite clients_drop_caches, lookup_delete_Some.
    intros [Hne Hc]. destruct (Hb kind a c Hc) as (Ha & Hk & Hv).
    split; [|done]. simpl. by rewrite lookup_delete_ne.
  - intros s _ kind a c. by rewrite clients_clear_caches, lookup_empty.
  - intros account o s Hb _ Hnone _ kind a c.
    rewrite clients_set_authClients, clients_bump_ref. intros Hc.
    destruct (Hb kind a c Hc) as (Ha & Hk & Hv). split; [|done]. simpl.
    rewrite lookup_insert_ne; [done|]. intros <-. congruence.
  - intros k account cred s Hb Hcred Hnone kind a c.
    rewrite clients_set_clients, clients_bump_ref, authClients_set_clients.
    case_bool_decide as Hk.
    + subst k. rewrite lookup_insert_Some.
      intros [[<- <-] | [_ Hc]]; [done|]. by apply Hb.
    + intros Hc. by apply Hb.
  - intros kf tf kind a c. destruct kind; simpl; by rewrite lookup_empty.
Qed.

(** The strategy of an account is fixed by the registry: the delegated
    identity is served by the service-account credential, every other
    identity by an OAuth2 client. *)
Definition strategy_fixed (st : WorkspaceAPI) : Prop :=
  forall (a : string) c,
    authClients st !! a = Some c ->
    if String.eqb a WORKSPACE_ACCOUNT
    then cred_obj c = JWT (keyFile st) SCOPES WORKSPACE_ACCOUNT
    else exists id secret refresh, cred_obj c = OAuth2Client id secret refresh.

Lemma reachable_strategy_fixed st : reachable st -> strategy_fixed st.
Proof.
  apply strong_reachable; unfold strategy_fixed.
  - intros f s Hs a c. apply Hs.
  - intros email s Hs a c. simpl. rewrite lookup_delete_Some.
    intros [_ Hc]. by apply (Hs a c).
  - intros s _ a c. simpl. by rewrite lookup_empty.
  - intros account o s Hs _ _ Hsrc a c. simpl. rewrite lookup_insert_Some.
    intros [[<- <-] | [_ Hc]]; [|by apply (Hs a c)]. simpl.
    unfold credential_source in Hsrc.
    destruct (String.eqb account WORKSPACE_ACCOUNT) eqn:E.
    + apply String.eqb_eq in E. subst account. by injection Hsrc as <-.
    + destruct (assoc account (tokens s)) as [tc|]; [|done].
      injection Hsrc as <-. eauto.
  - intros k account cred s Hs _ _ a c. rewrite authClients_set_clients.
    intros Hc. apply (Hs a c) in Hc. by destruct k.
  - intros kf tf a c. simpl. by rewrite lookup_empty.
Qed.

(** X4: in every reachable state, a cached service client is bound to the
    very credential that is cached for its account, so the clients of the
    four services of one account share one credential object. *)
Theorem clients_share_the_cached_credential st k1 k2 (a : string) c1 c2 :
  reachable st ->
  clients k1 st !! a = Some c1 ->
  clients k2 st !! a = Some c2 ->
  authClients st !! a = Some (svc_auth c1)
  /\ svc_auth c1 = svc_auth c2
  /\ svc_kind c1 = k1 /\ svc_version c1 = version_of k1.
Proof.
  intros Hr H1 H2.
  destruct (reachable_clients_bound st Hr k1 a c1 H1) as (Ha1 & Hk1 & Hv1).
  destruct (reachable_clients_bound st Hr k2 a c2 H2) as (Ha2 & _ & _).
  split; [done|]. split; [congruence | done].
Qed.

(** X5: the delegated identity always resolves, whatever the token map
    holds: [auth] returns a credential without any outside call, and in a
    reachable state that credential is the service-account credential for
    the instance's key file, with the fixed scopes, impersonating the
    delegated identity. A credential cached for any other identity is an
    OAuth2 client. *)
Theorem strategy_is_static st :
  reachable st ->
  (exists c st1,
     auth WORKSPACE_ACCOUNT st = (Ok c, st1, [])
     /\ cred_obj c = JWT (keyFile st) SCOPES WORKSPACE_ACCOUNT
     /\ tokens st1 = tokens st)
  /\ forall (a : string) c,
       a <> WORKSPACE_ACCOUNT ->
       authClients st !! a = Some c ->
       exists id secret refresh, cred_obj c = OAuth2Client id secret refresh.
Proof.
  intros Hr. pose proof (reachable_strategy_fixed st Hr) as Hs. split.
  - rewrite auth_by_source.
    change (isAllowedAccount WORKSPACE_ACCOUNT) with true. cbv iota.
    destruct (authClients st !! WORKSPACE_ACCOUNT) as [c|] eqn:Hc.
    + exists c, st. split; [done|]. split; [|done]. by apply (Hs _ _ Hc).
    + unfold credential_source.
      change (String.eqb WORKSPACE_ACCOUNT WORKSPACE_ACCOUNT) with true.
      cbv iota zeta. eexists _, _. split; [done|]. by split.
  - intros a c Hne Hc. apply Hs in Hc.
    apply String.eqb_neq in Hne. by rewrite Hne in Hc.
Qed.

(** X6: when [saveToken id rec] returns for an allowed OAuth identity, each
    of the four getters called next for [id] builds its client anew, on a
    credential allocated after the save and seeded with [rec]; no client
    built on an earlier record of [id] is handed out. *)
Theorem getters_after_saveToken env id rec st st1 l k :
  isAllowedAccount id = true ->
  id <> WORKSPACE_ACCOUNT ->
  saveToken env id rec st = (Ok tt, st1, l) ->
  exists c st2,
    service k id st1 = (Ok c, st2, [])
    /\ cred_obj (svc_auth c)
       = OAuth2Client (client_id rec) (client_secret rec) (refresh_token rec)
    /\ cred_ref (svc_auth c) = next_ref st
    /\ svc_ref c = S (next_ref st)
    /\ authClients st2 !! id = Some (svc_auth c).
Proof.
  intros Hallowed Hoauth Hsave. apply saveToken_ok in Hsave as [-> _].
  rewrite service_unfold, clients_drop_caches, lookup_delete_eq.
  rewrite auth_by_source, Hallowed.
  replace (authClients (drop_caches id (set_tokens (obj_set id rec) st)) !! id)
    with (@None credential) by (simpl; by rewrite lookup_delete_eq).
  unfold credential_source. apply String.eqb_neq in Hoauth. rewrite Hoauth.
  replace (tokens (drop_caches id (set_tokens (obj_set id rec) st)))
    with (obj_set id rec (tokens st)) by done.
  rewrite assoc_obj_set_eq. simpl. eexists _, _. split; [done|].
  split; [done|]. split; [done|]. split; [done|].
  rewrite authClients_set_clients. simpl. apply lookup_insert_eq.
Qed.

(** X7: a [saveToken] that throws (the directory cannot be created or the
    file cannot be written) has nevertheless put the record into the
    in-memory token map and has invalidated nothing: every cache is as it
    was, so a credential cached for the identity is still the one [auth]
    returns, although the map now holds another record. *)
Theorem failed_saveToken_keeps_caches env id rec st e st1 l :
  saveToken env id rec st = (Throw e, st1, l) ->
  st1 = set_tokens (obj_set id rec) st
  /\ assoc id (tokens st1) = Some rec
  /\ authClients st1 = authClients st
  /\ (forall kind, clients kind st1 = clients kind st)
  /\ (forall p data, WriteFileSync p data ∈ l ->
        env_writeFileSync env p data = Some e)
  /\ forall c0,
       isAllowedAccount id = true ->
       authClients st !! id = Some c0 ->
       auth id st1 = (Ok c0, st1, []).
Proof.
  rewrite saveToken_unfold. cbv zeta.
  assert (Hstale : forall c0,
    isAllowedAccount id = true -> authClients st !! id = Some c0 ->
    auth id (set_tokens (obj_set id rec) st)
    = (Ok c0, set_tokens (obj_set id rec) st, [])).
  { intros c0 Hallowed Hc0. rewrite auth_by_source, Hallowed. simpl.
    by rewrite Hc0. }
  destruct (if truthy _ then _ else _) as [e0|] eqn:Hmk.
  - intros [= <- <- <-]. split; [done|]. split; [apply assoc_obj_set_eq|].
    split; [done|]. split; [intros kind; apply clients_set_tokens|].
    split; [|done]. intros p data H. by apply list_elem_of_singleton in H.
  - destruct (env_writeFileSync _ _ _) as [e0|] eqn:Hwrite; [|done].
    intros [= <- <- <-]. split; [done|]. split; [apply assoc_obj_set_eq|].
    split; [done|]. split; [intros kind; apply clients_set_tokens|].
    split; [|done]. intros p data H. unfold saveToken_calls in H.
    apply elem_of_app in H as [H|H].
    + destruct (truthy _); [|by apply elem_of_nil in H].
      by apply list_elem_of_singleton in H.
    + apply list_elem_of_singleton in H. by injection H as -> ->.
Qed.

(** X8: a reload that cannot read or parse the token file does not throw:
    it empties the in-memory token map and leaves all five caches as they
    were. Afterwards only the delegated identity is listed, an identity
    whose credential was cached still resolves to it, and an allowed OAuth
    identity without a cached credential is refused for want of a record. *)
Theorem failed_reload env st :
  env_readTokens env (tokensFile st) = None ->
  let st1 := set_tokens (fun _ => []) st in
  loadTokens env st = (Ok tt, st1, [])
  /\ getConfiguredAccounts st1 = [WORKSPACE_ACCOUNT]
  /\ authClients st1 = authClients st
  /\ (forall kind, clients kind st1 = clients kind st)
  /\ (forall a c0,
        isAllowedAccount a = true -> authClients st !! a = Some c0 ->
        auth a st1 = (Ok c0, st1, []))
  /\ (forall a,
        isAllowedAccount a = true -> a <> WORKSPACE_ACCOUNT ->
        authClients st !! a = None ->
        auth a st1 = (Throw (missing_credential a), st1, [])).
Proof.
  intros Hread st1. rewrite loadTokens_unfold, Hread.
  split; [done|]. split; [done|]. split; [done|].
  split; [intros kind; apply clients_set_tokens|]. split.
  - intros a c0 Hallowed Hc0. rewrite auth_by_source, Hallowed. simpl.
    by rewrite Hc0.
  - intros a Hallowed Hoauth Hnone. rewrite auth_by_source, Hallowed. simpl.
    rewrite Hnone. unfold credential_source.
    apply String.eqb_neq in Hoauth. by rewrite Hoauth.
Qed.

Lemma allowed_oauth_identity a :
  isAllowedAccount a = true -> a <> WORKSPACE_ACCOUNT ->
  a = "outliyraffiliates@gmail.com" \/ a = "iamnickurban@gmail.com".
Proof.
  intros Hallowed Hne. apply isAllowedAccount_spec in Hallowed.
  unfold ALLOWED_ACCOUNTS in Hallowed.
  repeat (apply elem_of_cons in Hallowed as [->|Hallowed]); auto.
  - done.
  - by apply elem_of_nil in Hallowed.
Qed.

(** X9: a tool call for an allowed OAuth identity that has neither a stored
    record nor a cached credential makes no request: the caller gets the
    error payload that names the identity, the token generation script and
    the [/setup] route, and the instance is unchanged. *)
Theorem missing_credential_is_reported a mode operation st :
  reachable st ->
  isAllowedAccount a = true ->
  a <> WORKSPACE_ACCOUNT ->
  assoc a (tokens st) = None ->
  authClients st !! a = None ->
  toolHandler a mode operation st
  = (Ok (JSON_stringify
           (VObj [("error",
                   VStr ("No refresh token for " +:+ a +:+
                         ". Run the token generation script: npm run generate-token" +:+
                         ". Visit /setup on the server to authorize."))])),
     st, []).
Proof.
  intros Hr Hallowed Hoauth Htok Hnone.
  assert (Hclient : clients mode st !! a = None).
  { apply eq_None_not_Some. intros [c Hc].
    apply (reachable_clients_bound st Hr) in Hc as [Hc _]. congruence. }
  unfold toolHandler. rewrite service_unfold, Hclient.
  rewrite auth_by_source, Hallowed, Hnone. unfold credential_source.
  pose proof Hoauth as Hneq. apply String.eqb_neq in Hneq. rewrite Hneq, Htok.
  simpl. do 4 f_equal.
  destruct (allowed_oauth_identity a Hallowed Hoauth) as [-> | ->];
    vm_compute; reflexivity.
Qed.

(** The text for a revoked refresh token. *)
Definition REVOKED : string :=
  "Refresh token revoked or expired. Re-run: npm run generate-token".

Ltac split_status p :=
  destruct p as [p|p|]; simpl; try discriminate.

(** X10: an error that carries a [response] is translated by the status and
    body of that response alone: its message plays no part, and it is never
    reported as a revoked refresh token, not even when the message or the
    body says [invalid_grant]. *)
Theorem response_takes_precedence message1 message2 props :
  has_prop "response" props = true ->
  handleApiError (Err message1 props) = handleApiError (Err message2 props)
  /\ handleApiError (Err message1 props) <> REVOKED
  /\ handleApiError (Val (VObj props)) = handleApiError (Err message1 props).
Proof.
  intros Hresp. split; [|split].
  - unfold handleApiError, response_of. by rewrite Hresp.
  - unfold handleApiError, response_of. rewrite Hresp.
    destruct (get_opt _ "status") as [| |b|n|s|xs|ps]; simpl; try discriminate.
    destruct n as [|p|p]; simpl; try discriminate.
    do 10 (try split_status p).
  - unfold handleApiError, response_of. by rewrite Hresp.
Qed.

End Broker.

(** * More of index.ts: start-up and the authorization flow as a whole *)

(** [s.replace(/[^/]+$/, replacement)] for a replacement without [$]: the
    pattern matches the longest run of characters other than the slash that
    ends the string, which starts right after the last slash; when that run
    is empty nothing is replaced. *)
Definition replace_last_segment (s replacement : string) : string :=
  let start := Z.to_nat (lastIndexOf_slash s + 1) in
  if (start <? String.length s)%nat
  then String.substring 0 start s +:+ replacement
  else s.

(** The part of [main] that decides where the broker keeps its files:
    [None] is the exit for a missing [GOOGLE_SA_KEY_FILE]. *)
Definition broker_files (GOOGLE_SA_KEY_FILE GOOGLE_TOKENS_FILE : option string)
  : option (string * string) :=
  if negb (truthy_str GOOGLE_SA_KEY_FILE) then None
  else
    let keyFile := ToString_env GOOGLE_SA_KEY_FILE in
    Some (keyFile,
          if truthy_str GOOGLE_TOKENS_FILE then ToString_env GOOGLE_TOKENS_FILE
          else replace_last_segment keyFile "gmail-tokens.json").

Fixpoint slash_free (s : string) : bool :=
  match s with
  | EmptyString => true
  | String c s' => negb (Ascii.eqb c "/"%char) && slash_free s'
  end.

Example replace_last_segment_examples :
  replace_last_segment "/app/credentials/google-sa.json" "gmail-tokens.json"
    = "/app/credentials/gmail-tokens.json"
  /\ replace_last_segment "google-sa.json" "gmail-tokens.json"
     = "gmail-tokens.json"
  /\ replace_last_segment "/app/credentials/" "gmail-tokens.json"
     = "/app/credentials/".
Proof. vm_compute. repeat split. Qed.

Section Startup.

Lemma lastIndexOf_from_app a b : forall i found,
  lastIndexOf_from i found (a +:+ b)
  = lastIndexOf_from (i + Z.of_nat (String.length a))
      (lastIndexOf_from i found a) b.
Proof.
  induction a as [|c a IH]; intros i found; simpl.
  - by rewrite Z.add_0_r.
  - rewrite IH. f_equal. lia.
Qed.

Lemma lastIndexOf_from_slash_free n : forall i found,
  slash_free n = true -> lastIndexOf_from i found n = found.
Proof.
  induction n as [|c n IH]; intros i found; simpl; [done|].
  intros [Hc Hn]%andb_prop. apply negb_true_iff in Hc. rewrite Hc.
  by apply IH.
Qed.

Lemma lastIndexOf_slash_path dir name :
  slash_free name = true ->
  lastIndexOf_slash (dir +:+ "/" +:+ name) = Z.of_nat (String.length dir).
Proof.
  intros Hname. unfold lastIndexOf_slash.
  rewrite lastIndexOf_from_app. simpl.
  by rewrite lastIndexOf_from_slash_free.
Qed.

Lemma lastIndexOf_slash_free name :
  slash_free name = true -> lastIndexOf_slash name = (-1)%Z.
Proof. apply lastIndexOf_from_slash_free. Qed.

Lemma substring_prefix a b :
  String.substring 0 (String.length a) (a +:+ b) = a.
Proof.
  induction a as [|c a IH]; simpl.
  - by destruct b.
  - by rewrite IH.
Qed.

Lemma length_app a b :
  String.length (a +:+ b) = String.length a + String.length b.
Proof. induction a as [|c a IH]; simpl; [done | by rewrite IH]. Qed.

Lemma app_assoc_string (a b c : string) : (a +:+ b) +:+ c = a +:+ b +:+ c.
Proof.
  induction a as [|x a IH]; [done|].
  change (String x ((a +:+ b) +:+ c) = String x (a +:+ b +:+ c)). by f_equal.
Qed.

(** The directory part that [saveToken] computes for [dir/name]. *)
Lemma parent_of_path dir name :
  slash_free name = true ->
  substring0 (lastIndexOf_slash (dir +:+ "/" +:+ name)) (dir +:+ "/" +:+ name)
  = dir.
Proof.
  intros Hname. rewrite lastIndexOf_slash_path by done. unfold substring0.
  rewrite Z.max_r by lia. rewrite Nat2Z.id. apply substring_prefix.
Qed.

Lemma replace_last_segment_path dir name replacement :
  slash_free name = true -> name <> "" ->
  replace_last_segment (dir +:+ "/" +:+ name) replacement
  = dir +:+ "/" +:+ replacement.
Proof.
  intros Hname Hne. unfold replace_last_segment.
  rewrite lastIndexOf_slash_path by done.
  replace (Z.to_nat (Z.of_nat (String.length dir) + 1))
    with (String.length (dir +:+ "/")) by (rewrite length_app; simpl; lia).
  rewrite <- (app_assoc_string dir "/" name).
  rewrite (length_app (dir +:+ "/") name).
  destruct name as [|c name]; [done|]. simpl String.length.
  rewrite (proj2 (Nat.ltb_lt _ _)) by lia.
  rewrite substring_prefix. by rewrite app_assoc_string.
Qed.

End Startup.

Lemma tokensFile_new_WorkspaceAPI env key_path tokens_path :
  tokensFile (new_WorkspaceAPI env key_path tokens_path) = tokens_path
  /\ keyFile (new_WorkspaceAPI env key_path tokens_path) = key_path.
Proof.
  unfold new_WorkspaceAPI. rewrite loadTokens_unfold. simpl.
  by destruct (env_readTokens env tokens_path).
Qed.

(** X11: with [GOOGLE_TOKENS_FILE] unset, the token file of the broker is
    [gmail-tokens.json] in the directory of the key file, and the directory
    [saveToken] derives from it (the one it creates before writing) is that
    directory; for a key file given by a bare name the token file is the
    bare [gmail-tokens.json] and no directory is derived. *)
Theorem token_file_sits_beside_key_file dir name env :
  slash_free name = true ->
  name <> "" ->
  (exists api,
     (fun files => new_WorkspaceAPI env (fst files) (snd files))
       <$> broker_files (Some (dir +:+ "/" +:+ name)) None = Some api
     /\ keyFile api = dir +:+ "/" +:+ name
     /\ tokensFile api = dir +:+ "/" +:+ "gmail-tokens.json"
     /\ parent_dir api = dir)
  /\ (exists api,
        (fun files => new_WorkspaceAPI env (fst files) (snd files))
          <$> broker_files (Some name) None = Some api
        /\ tokensFile api = "gmail-tokens.json"
        /\ parent_dir api = "").
Proof.
  intros Hname Hne. split.
  - assert (Htruthy : truthy_str (Some (dir +:+ "/" +:+ name)) = true)
      by by destruct dir.
    unfold broker_files. rewrite Htruthy. simpl.
    rewrite replace_last_segment_path by done.
    eexists. split; [done|].
    destruct (tokensFile_new_WorkspaceAPI env (dir +:+ "/" +:+ name)
                (dir +:+ "/" +:+ "gmail-tokens.json")) as [Ht Hk].
    split; [done|]. split; [done|].
    unfold parent_dir. rewrite Ht. by apply parent_of_path.
  - assert (Htruthy : truthy_str (Some name) = true) by by destruct name.
    unfold broker_files. rewrite Htruthy. simpl.
    assert (Hrepl : replace_last_segment name "gmail-tokens.json"
                    = "gmail-tokens.json").
    { unfold replace_last_segment. rewrite lastIndexOf_slash_free by done.
      simpl. by destruct name. }
    rewrite Hrepl. eexists. split; [done|].
    destruct (tokensFile_new_WorkspaceAPI env name "gmail-tokens.json")
      as [Ht _].
    split; [done|]. unfold parent_dir. by rewrite Ht.
Qed.

Section Flow.

Context {runtime : Runtime}.

(** X12: the state that [GET /setup] puts into the authorization URL is one
    that [GET /oauth2callback] admits: if the caller presented the setup
    secret and named an account, the handler redirects with the state
    [JSON.stringify({account, token})], and a callback that brings a code
    and that state back passes all guards, provided the JSON functions of
    the runtime round-trip that object. *)
Theorem setup_state_is_admitted cfg secret account query callback api :
  setupToken cfg = Some secret ->
  secret <> "" ->
  req_query query "token" = VStr secret ->
  req_query query "account" = account ->
  truthy account = true ->
  let state_object := VObj [("account", account); ("token", VStr secret)] in
  JSON_parse (JSON_stringify state_object) = Some state_object ->
  JSON_stringify state_object <> "" ->
  truthy (req_query callback "error") = false ->
  truthy (req_query callback "code") = true ->
  req_query callback "state" = VStr (JSON_stringify state_object) ->
  setup cfg query api
  = Redirect
      (generateAuthUrl (googleClientId cfg) (googleClientSecret cfg)
         (redirectUri cfg)
         {| access_type := "offline"; scope := SCOPES; prompt := "consent";
            login_hint := account; state := JSON_stringify state_object |})
  /\ admitted cfg callback = true.
Proof.
  intros Hsecret Hne Htoken Haccount Htruthy state_object Hparse Hnonempty
    Herror Hcode Hstate. subst state_object.
  assert (Hs : truthy_str (setupToken cfg) = true).
  { rewrite Hsecret. simpl. apply String.eqb_neq in Hne. by rewrite Hne. }
  split.
  - unfold setup. rewrite Hs, Htoken, Haccount, Htruthy, Hsecret. simpl.
    by rewrite String.eqb_refl.
  - unfold admitted. rewrite Herror, Hcode, Hstate, Hs. simpl.
    apply String.eqb_neq in Hnonempty. rewrite Hnonempty. simpl.
    rewrite Hparse, Hsecret. simpl.
    apply String.eqb_refl.
Qed.

Lemma getter_on_fresh_record id rec st k :
  isAllowedAccount id = true ->
  id <> WORKSPACE_ACCOUNT ->
  exists c st2,
    service k id (drop_caches id (set_tokens (obj_set id rec) st))
    = (Ok c, st2, [])
    /\ cred_obj (svc_auth c)
       = OAuth2Client (client_id rec) (client_secret rec) (refresh_token rec).
Proof.
  intros Hallowed Hoauth.
  rewrite service_unfold, clients_drop_caches, lookup_delete_eq.
  rewrite auth_by_source, Hallowed.
  replace (authClients (drop_caches id (set_tokens (obj_set id rec) st)) !! id)
    with (@None credential) by (simpl; by rewrite lookup_delete_eq).
  unfold credential_source. apply String.eqb_neq in Hoauth. rewrite Hoauth.
  replace (tokens (drop_caches id (set_tokens (obj_set id rec) st)))
    with (obj_set id rec (tokens st)) by done.
  rewrite assoc_obj_set_eq. simpl. by eexists _, _.
Qed.

(** X13: a callback that passes the guards, obtains a refresh token, learns
    the e-mail address from the profile and persists without error answers
    with the success page, has stored the record under that address, has
    dropped the cache entries of that address, and lists it among the
    configured accounts; when the address is an allowed OAuth identity, each
    getter called next serves it with a credential built from the issued
    refresh token and the Google client values of the configuration. *)
Theorem authorized_account_is_usable cfg env query st toks refresh email :
  admitted cfg query = true ->
  env_getToken env (req_query query "code") = Ok toks ->
  tok_refresh_token toks = Some refresh ->
  refresh <> "" ->
  env_getProfile env toks = Ok email ->
  (forall dir, env_mkdirSync env dir = None) ->
  (forall path data, env_writeFileSync env path data = None) ->
  let record := {| client_id := googleClientId cfg;
                   client_secret := googleClientSecret cfg;
                   refresh_token := refresh |} in
  let st1 := drop_caches email (set_tokens (obj_set email record) st) in
  oauth2callback cfg env query st
  = (Ok (Send 200 (success_page cfg email (getConfiguredAccounts st1))), st1,
     [GetToken (req_query query "code"); GetProfile (tok_access_token toks)]
     ++ saveToken_calls email record st)
  /\ assoc email (tokens st1) = Some record
  /\ email ∈ getConfiguredAccounts st1
  /\ (isAllowedAccount email = true -> email <> WORKSPACE_ACCOUNT ->
      forall k, exists c st2,
        service k email st1 = (Ok c, st2, [])
        /\ cred_obj (svc_auth c)
           = OAuth2Client (googleClientId cfg) (googleClientSecret cfg) refresh).
Proof.
  intros Hadm Htoks Hrefresh Hne Hemail Hmkdir Hwrite record st1.
  assert (Htok : assoc email (tokens st1) = Some record)
    by apply assoc_obj_set_eq.
  split; [|split; [done|split]].
  - rewrite oauth2callback_admitted by done. unfold exchange.
    rewrite Htoks, Hrefresh. simpl. apply String.eqb_neq in Hne. rewrite Hne.
    simpl. rewrite Hemail.
    replace (issued_token cfg toks) with record
      by (unfold issued_token, record; by rewrite Hrefresh).
    rewrite saveToken_unfold. cbv zeta. rewrite Hwrite.
    by destruct (truthy _); rewrite ?Hmkdir.
  - apply getConfiguredAccounts_lists_keys, Object_keys_assoc. by rewrite Htok.
  - intros Hallowed Hoauth k.
    apply (getter_on_fresh_record email record st k Hallowed Hoauth).
Qed.

(** X14: a callback that does not answer with success has changed nothing,
    in memory or on disk, and has created no directory, unless the step
    that failed is the persisting itself: then [saveToken] threw, the
    record is in the in-memory token map, and the answer is the failure
    page for what was thrown. *)
Theorem failed_callback_changes_nothing cfg env query st r st1 l :
  oauth2callback cfg env query st = (r, st1, l) ->
  (forall body, r <> Ok (Send 200 body)) ->
  (st1 = st
   /\ (forall path data, WriteFileSync path data ∉ l)
   /\ (forall dir, MkdirSync dir ∉ l))
  \/ (exists toks email e l',
        env_getToken env (req_query query "code") = Ok toks
        /\ env_getProfile env toks = Ok email
        /\ saveToken env email (issued_token cfg toks) st = (Throw e, st1, l')
        /\ st1 = set_tokens (obj_set email (issued_token cfg toks)) st
        /\ r = failure_page e).
Proof.
  intros Hrun Hfail. destruct (admitted cfg query) eqn:Hadm.
  2: { destruct (oauth2callback_refused cfg env query st Hadm) as (r0 & Hr & _).
       rewrite Hr in Hrun. injection Hrun as <- <- <-. left.
       split; [done|].
       split; [intros path data Hin | intros dir Hin];
         by apply elem_of_nil in Hin. }
  rewrite oauth2callback_admitted in Hrun by done. unfold exchange in Hrun.
  assert (Hone : forall c, (forall path data, WriteFileSync path data ∉ [GetToken c])
                           /\ (forall dir, MkdirSync dir ∉ [GetToken c])).
  { intros c.
    split; [intros path data Hin | intros dir Hin];
      by apply list_elem_of_singleton in Hin. }
  assert (Htwo : forall c a,
            (forall path data, WriteFileSync path data ∉ [GetToken c; GetProfile a])
            /\ (forall dir, MkdirSync dir ∉ [GetToken c; GetProfile a])).
  { intros c a.
    split; [intros path data Hin | intros dir Hin];
      apply elem_of_cons in Hin as [Hin|Hin]; try done;
      by apply list_elem_of_singleton in Hin. }
  destruct (env_getToken env _) as [toks|e] eqn:Htoks.
  2: { injection Hrun as <- <- <-. left. split; [done|]. apply Hone. }
  destruct (truthy_str (tok_refresh_token toks)).
  2: { injection Hrun as <- <- <-. left. split; [done|]. apply Hone. }
  destruct (env_getProfile env toks) as [email|e] eqn:Hemail.
  2: { injection Hrun as <- <- <-. left. split; [done|]. apply Htwo. }
  destruct (saveToken env email _ st) as [[[[]|e] st2] l2] eqn:Hsave.
  { injection Hrun as <- _ _.
    by destruct (Hfail (success_page cfg email (getConfiguredAccounts st2))). }
  injection Hrun as <- <- <-. right. exists toks, email, e, l2.
  split; [done|]. split; [done|]. split; [done|]. split; [|done].
  destruct (saveToken_state env email (issued_token cfg toks) st) as [H|H];
    unfold state_after in H; rewrite Hsave in H; simpl in H; [done|].
  rewrite saveToken_unfold in Hsave. cbv zeta in Hsave.
  destruct (if truthy _ then _ else _); [by injection Hsave as _ <- _|].
  destruct (env_writeFileSync _ _ _); [by injection Hsave as _ <- _ | done].
Qed.

End Flow.

(** * The mode handlers (modes/calendar.ts, modes/contacts.ts, modes/gmail.ts)

    The parameters of a tool call that the handlers modelled below read,
    as the schema of [tool.ts] types them after validation; an optional
    field that is absent is [None]. *)
Module Params.

Record t : Type := {
  account : string;
  action : string;
  query : option string;
  to : option (list string);
  cc : option (list string);
  bcc : option (list string);
  subject : option string;
  body : option string;
  html : option bool;
  event_id : option string;
  calendar_id : option string;
  start : option string;
  end_ : option string;
  location : option string;
  attendees : option (list string);
  time_min : option string;
  time_max : option string;
  resource_name : option string;
  given_name : option string;
  family_name : option string;
  email : option string;
  phone : option string;
  organization : option string;
  max_results : option Z
}.

End Params.

(** What a handler does next once it holds its client: answer at once, or
    make the named request of the Google client with these arguments (the
    handling of the response is not part of this model), or throw. *)
Inductive step : Type :=
| Reply (text : string)
| Request (method : string) (args : jsval)
| Raise (e : thrown).

(** [o || fallback] for an optional string. *)
Definition or_else (o : option string) (fallback : string) : string :=
  if truthy_str o then ToString_env o else fallback.

(** An optional string as a property value. *)
Definition opt_js (o : option string) : jsval :=
  match o with Some s => VStr s | None => VUndefined end.

(** [params.max_results || 10] *)
Definition page_size (o : option Z) : jsval :=
  match o with
  | Some n => if (n =? 0)%Z then VNum 10 else VNum n
  | None => VNum 10
  end.

(** ** calendar.ts *)

Definition is_digit (c : ascii) : bool :=
  (48 <=? nat_of_ascii c)%nat && (nat_of_ascii c <=? 57)%nat.

(** Whether the string is, from start to end, the given sequence of
    character classes: [true] for a decimal digit, [false] for the dash. *)
Fixpoint has_shape (shape : list bool) (s : string) : bool :=
  match shape, s with
  | [], EmptyString => true
  | digit :: shape', String c s' =>
      (if digit then is_digit c else Ascii.eqb c "-"%char)
      && has_shape shape' s'
  | _, _ => false
  end.

(** [/^\d{4}-\d{2}-\d{2}$/.test(dateStr)] *)
Definition isAllDay (dateStr : string) : bool :=
  has_shape [true; true; true; true; false; true; true; false; true; true]
    dateStr.

(** [isAllDay(x) ? { date: x } : { dateTime: x }] *)
Definition event_time (x : string) : jsval :=
  if isAllDay x then VObj [("date", VStr x)] else VObj [("dateTime", VStr x)].

Definition attendee_list (emails : list string) : jsval :=
  VArr (map (fun email => VObj [("email", VStr email)]) emails).

(** The [patch] object of [update_event]: a property is assigned for each
    parameter that is truthy, in this order. *)
Definition update_event_patch (params : Params.t) : list (string * jsval) :=
  (if truthy_str (Params.subject params)
   then [("summary", opt_js (Params.subject params))] else [])
  ++ (if truthy_str (Params.body params)
      then [("description", opt_js (Params.body params))] else [])
  ++ (if truthy_str (Params.location params)
      then [("location", opt_js (Params.location params))] else [])
  ++ (if truthy_str (Params.start params)
      then [("start", event_time (ToString_env (Params.start params)))] else [])
  ++ (if truthy_str (Params.end_ params)
      then [("end", event_time (ToString_env (Params.end_ params)))] else [])
  ++ match Params.attendees params with
     | Some emails => [("attendees", attendee_list emails)]
     | None => []
     end.

Section Modes.

Context {runtime : Runtime}.

Definition error_reply (message : string) : step :=
  Reply (JSON_stringify (VObj [("error", VStr message)])).

(** [handleCalendar] after [api.calendar(params.account)] has returned, up
    to its first request; [now] is [new Date().toISOString()]. *)
Definition handleCalendar (now : string) (params : Params.t) : step :=
  let action := if String.eqb (Params.action params) "" then "list_events"
                else Params.action params in
  let calendarId := VStr (or_else (Params.calendar_id params) "primary") in
  if String.eqb action "list_events" then
    Request "events.list"
      (VObj [("calendarId", calendarId);
             ("timeMin", VStr (or_else (Params.time_min params) now));
             ("timeMax", opt_js (Params.time_max params));
             ("maxResults", page_size (Params.max_results params));
             ("singleEvents", VBool true);
             ("orderBy", VStr "startTime");
             ("q", opt_js (Params.query params))])
  else if String.eqb action "get_event" then
    if negb (truthy_str (Params.event_id params))
    then error_reply "event_id is required"
    else Request "events.get"
           (VObj [("calendarId", calendarId);
                  ("eventId", opt_js (Params.event_id params))])
  else if String.eqb action "create_event" then
    if negb (truthy_str (Params.subject params))
       || negb (truthy_str (Params.start params))
       || negb (truthy_str (Params.end_ params))
    then error_reply "subject, start, and end are required for create_event"
    else Request "events.insert"
           (VObj [("calendarId", calendarId);
                  ("requestBody",
                   VObj [("summary", opt_js (Params.subject params));
                         ("description", opt_js (Params.body params));
                         ("location", opt_js (Params.location params));
                         ("start", event_time (ToString_env (Params.start params)));
                         ("end", event_time (ToString_env (Params.end_ params)));
                         ("attendees",
                          match Params.attendees params with
                          | Some emails => attendee_list emails
                          | None => VUndefined
                          end)])])
  else if String.eqb action "update_event" then
    if negb (truthy_str (Params.event_id params))
    then error_reply "event_id is required for update_event"
    else Request "events.patch"
           (VObj [("calendarId", calendarId);
                  ("eventId", opt_js (Params.event_id params));
                  ("requestBody", VObj (update_event_patch params))])
  else if String.eqb action "delete_event" then
    if negb (truthy_str (Params.event_id params))
    then error_reply "event_id is required for delete_event"
    else Request "events.delete"
           (VObj [("calendarId", calendarId);
                  ("eventId", opt_js (Params.event_id params))])
  else if String.eqb action "list_calendars" then
    Request "calendarList.list" VUndefined
  else error_reply ("Unknown calendar action: " +:+ action).

(** The strings [isAllDay] accepts. *)
Lemma isAllDay_spec x :
  isAllDay x = true <->
  exists y1 y2 y3 y4 m1 m2 d1 d2 : ascii,
    forallb is_digit [y1; y2; y3; y4; m1; m2; d1; d2] = true
    /\ x = String.string_of_list_ascii
             [y1; y2; y3; y4; "-"%char; m1; m2; "-"%char; d1; d2].
Proof.
  unfold isAllDay. split.
  - intros H.
    do 10 (destruct x as [|? x];
           [simpl in H; rewrite ?andb_false_r in H; done|]).
    destruct x; simpl in H; [|rewrite ?andb_false_r in H; done].
    repeat (apply andb_prop in H as [? H]).
    repeat match goal with
           | E : Ascii.eqb _ _ = true |- _ => apply Ascii.eqb_eq in E; subst
           end.
    eexists _, _, _, _, _, _, _, _. split; [|reflexivity].
    simpl.
    repeat match goal with
           | E : is_digit _ = true |- _ => rewrite E; clear E
           end.
    reflexivity.
  - intros (y1 & y2 & y3 & y4 & m1 & m2 & d1 & d2 & Hd & ->). simpl in *.
    repeat (apply andb_prop in Hd as [? Hd]).
    repeat match goal with
           | E : is_digit _ = true |- _ => rewrite E; clear E
           end.
    reflexivity.
Qed.

(** X15: the start and the end of an event go out verbatim, as an all-day
    [date] exactly when the string is four digits, a dash, two digits, a
    dash and two digits and nothing else, and as a [dateTime] otherwise (so
    every string with a time part is a [dateTime]); [create_event] sends the
    two under [start] and [end] once subject, start and end are given. *)
Theorem event_times_are_classified_by_shape now params s e :
  Params.action params = "create_event" ->
  truthy_str (Params.subject params) = true ->
  Params.start params = Some s -> s <> "" ->
  Params.end_ params = Some e -> e <> "" ->
  (exists args,
     handleCalendar now params = Request "events.insert" args
     /\ get_opt (get_opt args "requestBody") "start" = event_time s
     /\ get_opt (get_opt args "requestBody") "end" = event_time e)
  /\ (forall x,
        (event_time x = VObj [("date", VStr x)]
         \/ event_time x = VObj [("dateTime", VStr x)])
        /\ (event_time x = VObj [("date", VStr x)] <->
            exists y1 y2 y3 y4 m1 m2 d1 d2 : ascii,
              forallb is_digit [y1; y2; y3; y4; m1; m2; d1; d2] = true
              /\ x = String.string_of_list_ascii
                       [y1; y2; y3; y4; "-"%char; m1; m2; "-"%char; d1; d2])).
Proof.
  intros Haction Hsubject Hstart Hs Hend He. split.
  - unfold handleCalendar. rewrite Haction, Hsubject, Hstart, Hend. simpl.
    apply String.eqb_neq in Hs, He. rewrite Hs, He. simpl.
    eexists. split; [reflexivity|]. by split.
  - intros x. rewrite <- isAllDay_spec. unfold event_time.
    destruct (isAllDay x); split; auto; by split.
Qed.

(** X16: the patch of [update_event] holds a property for exactly those of
    subject, body, location, start and end that are non-empty strings and
    for attendees whenever the list is given, even empty; an empty string
    never clears a field, and the patch request is made with whatever the
    patch holds, be it nothing, as soon as an event id is given. *)
Theorem update_event_patches_what_is_given now params :
  Object_keys (update_event_patch params)
  = map fst
      (List.filter snd
         [("summary", truthy_str (Params.subject params));
          ("description", truthy_str (Params.body params));
          ("location", truthy_str (Params.location params));
          ("start", truthy_str (Params.start params));
          ("end", truthy_str (Params.end_ params));
          ("attendees", bool_decide (is_Some (Params.attendees params)))])
  /\ (Params.action params = "update_event" ->
      truthy_str (Params.event_id params) = true ->
      handleCalendar now params
      = Request "events.patch"
          (VObj [("calendarId",
                  VStr (or_else (Params.calendar_id params) "primary"));
                 ("eventId", opt_js (Params.event_id params));
                 ("requestBody", VObj (update_event_patch params))])).
Proof.
  split.
  - unfold update_event_patch.
    destruct (truthy_str (Params.subject params)),
      (truthy_str (Params.body params)),
      (truthy_str (Params.location params)),
      (truthy_str (Params.start params)),
      (truthy_str (Params.end_ params)),
      (Params.attendees params); reflexivity.
  - intros Haction Hid. unfold handleCalendar. rewrite Haction, Hid.
    reflexivity.
Qed.

(** ** contacts.ts *)

Definition PERSON_FIELDS : string :=
  "names,emailAddresses,phoneNumbers,organizations,biographies,urls,addresses".

(** [v?.[0]] *)
Definition first_of (v : jsval) : jsval :=
  match v with
  | VArr (x :: _) => x
  | VObj props => default VUndefined (assoc "0" props)
  | VStr (String c _) => VStr (String c EmptyString)
  | _ => VUndefined
  end.

(** [param || fallback] where the fallback is any value. *)
Definition or_value (o : option string) (fallback : jsval) : jsval :=
  if truthy_str o then opt_js o else fallback.

(** The [contactData] of [create]. *)
Definition create_contact_data (params : Params.t) : list (string * jsval) :=
  (if truthy_str (Params.given_name params)
      || truthy_str (Params.family_name params)
   then [("names",
          VArr [VObj [("givenName", opt_js (Params.given_name params));
                      ("familyName", opt_js (Params.family_name params))]])]
   else [])
  ++ (if truthy_str (Params.email params)
      then [("emailAddresses",
             VArr [VObj [("value", opt_js (Params.email params))]])]
      else [])
  ++ (if truthy_str (Params.phone params)
      then [("phoneNumbers",
             VArr [VObj [("value", opt_js (Params.phone params))]])]
      else [])
  ++ (if truthy_str (Params.organization params)
      then [("organizations",
             VArr [VObj [("name", opt_js (Params.organization params))]])]
      else []).

(** [handleContacts] after [api.people(params.account)] has returned, up to
    its first request. *)
Definition handleContacts (params : Params.t) : step :=
  let action := if String.eqb (Params.action params) "" then "search"
                else Params.action params in
  if String.eqb action "search" then
    if negb (truthy_str (Params.query params))
    then error_reply "query is required for search"
    else Request "people.searchContacts"
           (VObj [("query", opt_js (Params.query params));
                  ("readMask", VStr PERSON_FIELDS);
                  ("pageSize", page_size (Params.max_results params))])
  else if String.eqb action "list" then
    Request "people.connections.list"
      (VObj [("resourceName", VStr "people/me");
             ("personFields", VStr PERSON_FIELDS);
             ("pageSize", page_size (Params.max_results params));
             ("sortOrder", VStr "LAST_MODIFIED_DESCENDING")])
  else if String.eqb action "get" then
    if negb (truthy_str (Params.resource_name params))
    then error_reply "resource_name is required for get"
    else Request "people.get"
           (VObj [("resourceName", opt_js (Params.resource_name params));
                  ("personFields", VStr PERSON_FIELDS)])
  else if String.eqb action "create" then
    if negb (truthy_str (Params.given_name params))
       && negb (truthy_str (Params.email params))
    then error_reply "At least given_name or email is required for create"
    else Request "people.createContact"
           (VObj [("requestBody", VObj (create_contact_data params));
                  ("personFields", VStr PERSON_FIELDS)])
  else if String.eqb action "update" then
    if negb (truthy_str (Params.resource_name params))
    then error_reply "resource_name is required for update"
    else Request "people.get"
           (VObj [("resourceName", opt_js (Params.resource_name params));
                  ("personFields", VStr PERSON_FIELDS)])
  else error_reply ("Unknown contacts action: " +:+ action).

(** The [updateData] and [updateFields] of [update], built from the
    parameters and from [data], the contact as the first request returned
    it. *)
Definition update_contact_data (params : Params.t) (etag data : jsval)
  : list (string * jsval) * list string :=
  let names := first_of (get_opt data "names") in
  let step1 :=
    if truthy_str (Params.given_name params)
       || truthy_str (Params.family_name params)
    then ([("names",
            VArr [VObj [("givenName",
                         or_value (Params.given_name params)
                           (get_opt names "givenName"));
                        ("familyName",
                         or_value (Params.family_name params)
                           (get_opt names "familyName"))]])],
          ["names"])
    else ([], []) in
  let step2 :=
    if truthy_str (Params.email params)
    then ([("emailAddresses",
            VArr [VObj [("value", opt_js (Params.email params))]])],
          ["emailAddresses"])
    else ([], []) in
  let step3 :=
    if truthy_str (Params.phone params)
    then ([("phoneNumbers",
            VArr [VObj [("value", opt_js (Params.phone params))]])],
          ["phoneNumbers"])
    else ([], []) in
  let step4 :=
    if truthy_str (Params.organization params)
    then ([("organizations",
            VArr [VObj [("name", opt_js (Params.organization params))]])],
          ["organizations"])
    else ([], []) in
  ([("etag", etag)] ++ fst step1 ++ fst step2 ++ fst step3 ++ fst step4,
   snd step1 ++ snd step2 ++ snd step3 ++ snd step4).

(** What [update] does with the answer [data] to its first request. *)
Definition update_contact (params : Params.t) (data : jsval) : step :=
  match get_prop data "etag" with
  | None => Raise (TypeError_read data "etag")
  | Some etag =>
      let '(updateData, updateFields) := update_contact_data params etag data in
      if (length updateFields =? 0)%nat
      then error_reply "No fields to update"
      else Request "people.updateContact"
             (VObj [("resourceName", opt_js (Params.resource_name params));
                    ("updatePersonFields", VStr (join "," updateFields));
                    ("requestBody", VObj updateData);
                    ("personFields", VStr PERSON_FIELDS)])
  end.

(** X17: when [update] sends its update request, the field mask names, in
    order and once each, exactly the properties of the request body other
    than [etag], and there is at least one; when none of the five contact
    parameters is a non-empty string it answers that there is nothing to
    update and sends nothing. *)
Theorem update_mask_matches_body params data etag :
  get_prop data "etag" = Some etag ->
  let '(updateData, updateFields) := update_contact_data params etag data in
  Object_keys updateData = "etag" :: updateFields
  /\ NoDup updateFields
  /\ (updateFields = [] <->
      truthy_str (Params.given_name params) = false
      /\ truthy_str (Params.family_name params) = false
      /\ truthy_str (Params.email params) = false
      /\ truthy_str (Params.phone params) = false
      /\ truthy_str (Params.organization params) = false)
  /\ update_contact params data
     = match updateFields with
       | [] => error_reply "No fields to update"
       | _ :: _ =>
           Request "people.updateContact"
             (VObj [("resourceName", opt_js (Params.resource_name params));
                    ("updatePersonFields", VStr (join "," updateFields));
                    ("requestBody", VObj updateData);
                    ("personFields", VStr PERSON_FIELDS)])
       end.
Proof.
  intros Hetag. unfold update_contact. rewrite Hetag.
  unfold update_contact_data.
  destruct (truthy_str (Params.given_name params)),
    (truthy_str (Params.family_name params)),
    (truthy_str (Params.email params)),
    (truthy_str (Params.phone params)),
    (truthy_str (Params.organization params)); simpl;
    (split; [reflexivity|]);
    (split; [apply (bool_decide_unpack _); vm_compute; exact I|]);
    (split; [|reflexivity]);
    (split; [intros [=] | intros (? & ? & ? & ? & ?); try discriminate]);
    auto.
Qed.

(** X18: [create] never sends an empty contact: a request is made only when
    the given name or the e-mail address is a non-empty string, and its
    body then holds [names] or [emailAddresses]; a family name alone is
    refused. *)
Theorem create_contact_is_never_empty params :
  Params.action params = "create" ->
  (truthy_str (Params.given_name params) = false ->
   truthy_str (Params.email params) = false ->
   handleContacts params
   = error_reply "At least given_name or email is required for create")
  /\ (truthy_str (Params.given_name params)
      || truthy_str (Params.email params) = true ->
      handleContacts params
      = Request "people.createContact"
          (VObj [("requestBody", VObj (create_contact_data params));
                 ("personFields", VStr PERSON_FIELDS)])
      /\ (is_Some (assoc "names" (create_contact_data params))
          \/ is_Some (assoc "emailAddresses" (create_contact_data params)))).
Proof.
  intros Haction. unfold handleContacts. rewrite Haction. simpl. split.
  - by intros -> ->.
  - unfold create_contact_data.
    destruct (truthy_str (Params.given_name params)),
      (truthy_str (Params.email params)); simpl; try done; intros _.
    + split; [done|]. left. by eexists.
    + split; [done|]. left. by eexists.
    + split; [done|]. right.
      destruct (truthy_str (Params.family_name params)); simpl; by eexists.
Qed.

End Modes.

(** ** gmail.ts *)

(** [Buffer.from(text).toString("base64url")]: the bytes of the text, three
    at a time, as four characters of the URL-safe alphabet, unpadded. *)
Definition base64url_alphabet : string :=
  "ABCDEFGHIJKLMNOPQRSTUVWXYZabcdefghijklmnopqrstuvwxyz0123456789-_".

Definition sextet_char (n : nat) : ascii :=
  default "A"%char (String.get n base64url_alphabet).

Fixpoint sextets (bytes : list nat) : list nat :=
  match bytes with
  | a :: b :: c :: rest =>
      [a / 4; (a mod 4) * 16 + b / 16; (b mod 16) * 4 + c / 64; c mod 64]
      ++ sextets rest
  | [a; b] => [a / 4; (a mod 4) * 16 + b / 16; (b mod 16) * 4]
  | [a] => [a / 4; (a mod 4) * 16]
  | [] => []
  end.

Definition Buffer_base64url (text : string) : string :=
  String.string_of_list_ascii
    (map sextet_char
       (sextets (map nat_of_ascii (String.list_ascii_of_string text)))).

Example base64url_examples :
  Buffer_base64url "Man" = "TWFu"
  /\ Buffer_base64url "Ma" = "TWE"
  /\ Buffer_base64url "M" = "TQ"
  /\ Buffer_base64url
       (String (ascii_of_nat 251) (String (ascii_of_nat 255) EmptyString))
     = "-_8".
Proof. vm_compute. repeat split. Qed.

Module Reply.

(** The [inReplyHeaders] of [buildRawEmail]. *)
Record t : Type := {
  messageId : string;
  subject : string;
  threadId : string
}.

End Reply.

Definition crlf : string :=
  String (ascii_of_nat 13) (String (ascii_of_nat 10) EmptyString).

(** [list?.join(", ")] *)
Definition joined (o : option (list string)) : option string :=
  join ", " <$> o.

(** The subject of a reply when the caller names none. *)
Definition reply_subject (original : string) : string :=
  if starts_with "Re:" original then original else "Re: " +:+ original.

(** The [lines] of [buildRawEmail]. *)
Definition raw_email_lines (params : Params.t) (inReplyHeaders : option Reply.t)
  : list string :=
  ["To: " +:+ or_else (joined (Params.to params)) ""]
  ++ (if truthy_str (joined (Params.cc params))
      then ["Cc: " +:+ ToString_env (joined (Params.cc params))] else [])
  ++ (if truthy_str (joined (Params.bcc params))
      then ["Bcc: " +:+ ToString_env (joined (Params.bcc params))] else [])
  ++ match inReplyHeaders with
     | Some reply =>
         ["Subject: " +:+
            (if truthy_str (Params.subject params)
             then ToString_env (Params.subject params)
             else reply_subject (Reply.subject reply));
          "In-Reply-To: " +:+ Reply.messageId reply;
          "References: " +:+ Reply.messageId reply]
     | None => ["Subject: " +:+ or_else (Params.subject params) ""]
     end
  ++ [if default false (Params.html params)
      then "Content-Type: text/html; charset=utf-8"
      else "Content-Type: text/plain; charset=utf-8"]
  ++ [""; or_else (Params.body params) ""].

Definition buildRawEmail (params : Params.t) (inReplyHeaders : option Reply.t)
  : string :=
  Buffer_base64url (join crlf (raw_email_lines params inReplyHeaders)).

(** X19: a reply for which the caller gives no subject carries the subject
    of the original, marked with one [Re:]: it is prefixed with [Re: ]
    unless it already starts with [Re:], so the subject of a reply to a
    reply is not prefixed again; the Message-ID of the original goes into
    both [In-Reply-To] and [References], right after the subject. *)
Theorem reply_subject_is_marked_once params reply :
  truthy_str (Params.subject params) = false ->
  (exists addressing rest,
     raw_email_lines params (Some reply)
     = addressing
       ++ ["Subject: " +:+ reply_subject (Reply.subject reply);
           "In-Reply-To: " +:+ Reply.messageId reply;
           "References: " +:+ Reply.messageId reply]
       ++ rest)
  /\ starts_with "Re:" (reply_subject (Reply.subject reply)) = true
  /\ reply_subject (reply_subject (Reply.subject reply))
     = reply_subject (Reply.subject reply)
  /\ (starts_with "Re:" (Reply.subject reply) = false ->
      reply_subject (Reply.subject reply) = "Re: " +:+ Reply.subject reply).
Proof.
  intros Hsubject.
  assert (Hmarked : starts_with "Re:" (reply_subject (Reply.subject reply)) = true).
  { unfold reply_subject.
    by destruct (starts_with "Re:" (Reply.subject reply)) eqn:E. }
  split; [|split; [done|split]].
  - unfold raw_email_lines. rewrite Hsubject.
    exists (["To: " +:+ or_else (joined (Params.to params)) ""]
            ++ (if truthy_str (joined (Params.cc params))
                then ["Cc: " +:+ ToString_env (joined (Params.cc params))]
                else [])
            ++ (if truthy_str (joined (Params.bcc params))
                then ["Bcc: " +:+ ToString_env (joined (Params.bcc params))]
                else [])),
           ([if default false (Params.html params)
             then "Content-Type: text/html; charset=utf-8"
             else "Content-Type: text/plain; charset=utf-8"]
            ++ [""; or_else (Params.body params) ""]).
    by rewrite <- !app_assoc.
  - unfold reply_subject at 1. by rewrite Hmarked.
  - unfold reply_subject. by intros ->.
Qed.

(** * The further properties at concrete inputs *)

(** The file system refuses the write. *)
Definition world_read_only : environment :=
  {| env_readTokens := fun _ => None;
     env_mkdirSync := fun _ => None;
     env_writeFileSync := fun _ _ =>
       Some (Err "EACCES: permission denied, open" []);
     env_getToken := fun _ => Ok (sample_tokens (Some "1//new"));
     env_getProfile := fun _ => Ok affiliate |}.

(** The profile names [affiliate]. *)
Definition world_affiliate : environment :=
  sample_env (sample_tokens (Some "1//new")) affiliate.

(** [warm_api] after the Drive client of [affiliate] was served too. *)
Definition busy_api : WorkspaceAPI :=
  run (runtime := sample_runtime) (OpService Drive affiliate) warm_api.

Lemma busy_api_reachable : reachable (runtime := sample_runtime) busy_api.
Proof. apply reachable_run, warm_api_reachable. Qed.

Lemma clients_share_the_cached_credential_witness :
  exists c1 c2,
    clients Gmail busy_api !! affiliate = Some c1
    /\ clients Drive busy_api !! affiliate = Some c2
    /\ svc_ref c1 <> svc_ref c2
    /\ svc_auth c1 = svc_auth c2
    /\ authClients busy_api !! affiliate = Some (svc_auth c1).
Proof.
  eexists _, _.
  assert (H1 : clients Gmail busy_api !! affiliate
               = Some {| svc_ref := 3; svc_kind := Gmail; svc_version := "v1";
                         svc_auth := {| cred_ref := 2;
                                        cred_obj := OAuth2Client "client-id"
                                          "client-secret" "1//old" |} |})
    by (vm_compute; reflexivity).
  assert (H2 : clients Drive busy_api !! affiliate
               = Some {| svc_ref := 4; svc_kind := Drive; svc_version := "v3";
                         svc_auth := {| cred_ref := 2;
                                        cred_obj := OAuth2Client "client-id"
                                          "client-secret" "1//old" |} |})
    by (vm_compute; reflexivity).
  destruct (clients_share_the_cached_credential (runtime := sample_runtime)
              busy_api Gmail Drive affiliate _ _ busy_api_reachable H1 H2)
    as (Hcached & Hshared & _).
  split; [exact H1|]. split; [exact H2|]. split; [discriminate|].
  split; [exact Hshared | exact Hcached].
Defined.

(** A record stored under the delegated identity itself is ignored. *)
Lemma strategy_is_static_witness :
  let st := run (runtime := sample_runtime)
              (OpSaveToken world WORKSPACE_ACCOUNT new_record) sample_api in
  reachable (runtime := sample_runtime) st
  /\ assoc WORKSPACE_ACCOUNT (tokens st) = Some new_record
  /\ exists c st1,
       auth WORKSPACE_ACCOUNT st = (Ok c, st1, [])
       /\ cred_obj c
          = JWT "/app/credentials/google-sa.json" SCOPES WORKSPACE_ACCOUNT.
Proof.
  intros st.
  assert (Hr : reachable (runtime := sample_runtime) st)
    by apply reachable_run, reachable_new.
  split; [exact Hr|]. split; [by vm_compute|].
  destruct (strategy_is_static (runtime := sample_runtime) st Hr)
    as [(c & st1 & Hauth & Hobj & _) _].
  exists c, st1. split; [exact Hauth | exact Hobj].
Defined.

Lemma getters_after_saveToken_witness :
  let st1 := run (runtime := sample_runtime)
               (OpSaveToken world affiliate new_record) busy_api in
  isAllowedAccount affiliate = true
  /\ affiliate <> WORKSPACE_ACCOUNT
  /\ is_Some (clients Drive busy_api !! affiliate)
  /\ exists c st2,
       service Drive affiliate st1 = (Ok c, st2, [])
       /\ cred_obj (svc_auth c)
          = OAuth2Client "client-id" "client-secret" "1//new".
Proof.
  intros st1.
  assert (Hne : affiliate <> WORKSPACE_ACCOUNT) by discriminate.
  assert (Hsave : saveToken (runtime := sample_runtime) world affiliate
                    new_record busy_api
                  = (Ok tt, st1, snd (saveToken (runtime := sample_runtime)
                                        world affiliate new_record busy_api)))
    by (vm_compute; reflexivity).
  destruct (getters_after_saveToken (runtime := sample_runtime) world affiliate
              new_record busy_api st1 _ Drive eq_refl Hne Hsave)
    as (c & st2 & Hsvc & Hobj & _).
  split; [reflexivity|]. split; [exact Hne|].
  split; [vm_compute; by eexists|].
  exists c, st2. split; [exact Hsvc | exact Hobj].
Defined.

Lemma failed_saveToken_keeps_caches_witness :
  let result := saveToken (runtime := sample_runtime) world_read_only affiliate
                  new_record busy_api in
  fst (fst result) = Throw (Err "EACCES: permission denied, open" [])
  /\ assoc affiliate (tokens (snd (fst result))) = Some new_record
  /\ fst (fst (auth affiliate (snd (fst result))))
     = Ok {| cred_ref := 2;
             cred_obj := OAuth2Client "client-id" "client-secret" "1//old" |}.
Proof.
  intros result.
  assert (Hthrow : saveToken (runtime := sample_runtime) world_read_only
                     affiliate new_record busy_api
                   = (Throw (Err "EACCES: permission denied, open" []),
                      snd (fst result), snd result))
    by (vm_compute; reflexivity).
  destruct (failed_saveToken_keeps_caches (runtime := sample_runtime)
              world_read_only affiliate new_record busy_api _ _ _ Hthrow)
    as (_ & Htok & _ & _ & _ & Hstale).
  split; [by vm_compute|]. split; [exact Htok|].
  rewrite (Hstale {| cred_ref := 2;
                     cred_obj := OAuth2Client "client-id" "client-secret"
                                   "1//old" |} eq_refl);
    [reflexivity | by vm_compute].
Defined.

Lemma failed_reload_witness :
  env_readTokens world (tokensFile busy_api) = None
  /\ tokens busy_api = [(affiliate, old_record)]
  /\ tokens (run (runtime := sample_runtime) (OpLoadTokens world) busy_api) = []
  /\ fst (fst (auth affiliate
                 (run (runtime := sample_runtime) (OpLoadTokens world) busy_api)))
     = Ok {| cred_ref := 2;
             cred_obj := OAuth2Client "client-id" "client-secret" "1//old" |}.
Proof.
  destruct (failed_reload world busy_api eq_refl)
    as (Hload & _ & _ & _ & Hcached & _).
  split; [reflexivity|]. split; [by vm_compute|].
  assert (Hrun : run (runtime := sample_runtime) (OpLoadTokens world) busy_api
                 = set_tokens (fun _ => []) busy_api).
  { simpl. unfold state_after. by rewrite Hload. }
  rewrite Hrun. split; [reflexivity|].
  rewrite (Hcached affiliate
             {| cred_ref := 2;
                cred_obj := OAuth2Client "client-id" "client-secret"
                              "1//old" |} eq_refl);
    [reflexivity | by vm_compute].
Defined.

Lemma missing_credential_is_reported_witness :
  reachable (runtime := sample_runtime) sample_api
  /\ assoc affiliate (tokens sample_api) = None
  /\ toolHandler (runtime := sample_runtime) affiliate Calendar
       (fun _ => Ok "unused") sample_api
     = (Ok (sample_stringify
              (VObj [("error",
                      VStr ("No refresh token for iamnickurban@gmail.com" +:+
                            ". Run the token generation script: npm run generate-token" +:+
                            ". Visit /setup on the server to authorize."))])),
        sample_api, []).
Proof.
  assert (Hr : reachable (runtime := sample_runtime) sample_api)
    by apply reachable_new.
  split; [exact Hr|]. split; [reflexivity|].
  assert (Hne : affiliate <> WORKSPACE_ACCOUNT) by discriminate.
  exact (missing_credential_is_reported (runtime := sample_runtime) affiliate
           Calendar (fun _ => Ok "unused") sample_api Hr eq_refl Hne eq_refl
           eq_refl).
Defined.

(** The error of a refused token refresh, as the Google client throws it. *)
Definition invalid_grant_response : list (string * jsval) :=
  [("response",
    VObj [("status", VNum 400);
          ("data", VObj [("error", VStr "invalid_grant");
                         ("error_description", VStr "Token has been revoked.")])])].

Lemma response_takes_precedence_witness :
  has_prop "response" invalid_grant_response = true
  /\ handleApiError (runtime := sample_runtime)
       (Err "invalid_grant" invalid_grant_response)
     = "Bad request: " +:+
       sample_stringify
         (VObj [("error", VStr "invalid_grant");
                ("error_description", VStr "Token has been revoked.")])
  /\ handleApiError (runtime := sample_runtime)
       (Err "invalid_grant" invalid_grant_response) <> REVOKED
  /\ handleApiError (runtime := sample_runtime) (Err "invalid_grant" [])
     = REVOKED.
Proof.
  destruct (response_takes_precedence (runtime := sample_runtime)
              "invalid_grant" "" invalid_grant_response eq_refl)
    as (_ & Hnot & _).
  split; [reflexivity|]. split; [by vm_compute|]. split; [exact Hnot|].
  by vm_compute.
Defined.

Lemma token_file_sits_beside_key_file_witness :
  slash_free "google-sa.json" = true
  /\ broker_files (Some "/app/credentials/google-sa.json") None
     = Some ("/app/credentials/google-sa.json",
             "/app/credentials/gmail-tokens.json")
  /\ parent_dir
       (new_WorkspaceAPI world "/app/credentials/google-sa.json"
          "/app/credentials/gmail-tokens.json")
     = "/app/credentials".
Proof.
  assert (Hne : "google-sa.json" <> "") by discriminate.
  destruct (token_file_sits_beside_key_file "/app/credentials" "google-sa.json"
              world eq_refl Hne) as [(api & Hfiles & _ & _ & Hdir) _].
  split; [reflexivity|]. split; [reflexivity|].
  injection Hfiles as <-. exact Hdir.
Defined.

Lemma setup_state_is_admitted_witness :
  let cfg := sample_config (Some "s3cret") in
  let query := [("token", VStr "s3cret"); ("account", VStr affiliate)] in
  setup (runtime := sample_runtime) cfg query sample_api
  = Redirect
      ("https://accounts.google.com/o/oauth2/v2/auth?client_id=client-id" +:+
       "&redirect_uri=https://mcp.example.org/oauth2callback&state=" +:+
       good_state)
  /\ admitted (runtime := sample_runtime) cfg (callback_query good_state) = true.
Proof.
  intros cfg query.
  assert (Hne : "s3cret" <> "") by discriminate.
  assert (Hstate : JSON_stringify (Runtime := sample_runtime)
                     (VObj [("account", VStr affiliate); ("token", VStr "s3cret")])
                   <> "") by discriminate.
  destruct (setup_state_is_admitted (runtime := sample_runtime) cfg "s3cret"
              (VStr affiliate) query (callback_query good_state) sample_api
              eq_refl Hne eq_refl eq_refl eq_refl eq_refl Hstate eq_refl eq_refl
              eq_refl) as [Hsetup Hadm].
  split; [|exact Hadm]. rewrite Hsetup. reflexivity.
Defined.

Lemma authorized_account_is_usable_witness :
  let cfg := sample_config (Some "s3cret") in
  let record := {| client_id := googleClientId cfg;
                   client_secret := googleClientSecret cfg;
                   refresh_token := "1//new" |} in
  let st1 := drop_caches affiliate
               (set_tokens (obj_set affiliate record) busy_api) in
  admitted (runtime := sample_runtime) cfg (callback_query good_state) = true
  /\ oauth2callback (runtime := sample_runtime) cfg world_affiliate
       (callback_query good_state) busy_api
     = (Ok (Send 200 (success_page (runtime := sample_runtime) cfg affiliate
                        (getConfiguredAccounts st1))), st1,
        [GetToken (req_query (callback_query good_state) "code");
         GetProfile (tok_access_token (sample_tokens (Some "1//new")))]
        ++ saveToken_calls (runtime := sample_runtime) affiliate record busy_api)
  /\ assoc affiliate (tokens st1) = Some record
  /\ exists c st2,
       service Gmail affiliate st1 = (Ok c, st2, [])
       /\ cred_obj (svc_auth c)
          = OAuth2Client (googleClientId cfg) (googleClientSecret cfg) "1//new".
Proof.
  intros cfg record st1.
  assert (Hadm : admitted (runtime := sample_runtime) cfg
                   (callback_query good_state) = true)
    by (vm_compute; reflexivity).
  assert (Hne : "1//new" <> "") by discriminate.
  assert (Hoauth : affiliate <> WORKSPACE_ACCOUNT) by discriminate.
  destruct (authorized_account_is_usable (runtime := sample_runtime) cfg
              world_affiliate (callback_query good_state) busy_api
              (sample_tokens (Some "1//new")) "1//new" affiliate
              Hadm eq_refl eq_refl Hne eq_refl (fun _ => eq_refl)
              (fun _ _ => eq_refl)) as (Hrun & Htok & _ & Husable).
  split; [exact Hadm|]. split; [exact Hrun|]. split; [exact Htok|].
  exact (Husable eq_refl Hoauth Gmail).
Defined.

Lemma failed_callback_changes_nothing_witness :
  let cfg := sample_config (Some "s3cret") in
  let result := oauth2callback (runtime := sample_runtime) cfg world_read_only
                  (callback_query good_state) busy_api in
  fst (fst result)
  = Ok (Send 500 ("<h1>Token exchange failed</h1><p>" +:+
                  "EACCES: permission denied, open" +:+ "</p>"))
  /\ assoc affiliate (tokens (snd (fst result))) = Some new_record
  /\ authClients (snd (fst result)) = authClients busy_api.
Proof.
  intros cfg result.
  assert (Hrun : oauth2callback (runtime := sample_runtime) cfg world_read_only
                   (callback_query good_state) busy_api
                 = (Ok (Send 500 ("<h1>Token exchange failed</h1><p>" +:+
                                  "EACCES: permission denied, open" +:+ "</p>")),
                    snd (fst result), snd result))
    by (vm_compute; reflexivity).
  assert (Hfail : forall body,
            Ok (Send 500 ("<h1>Token exchange failed</h1><p>" +:+
                          "EACCES: permission denied, open" +:+ "</p>"))
            <> Ok (Send 200 body)) by discriminate.
  destruct (failed_callback_changes_nothing (runtime := sample_runtime) cfg
              world_read_only (callback_query good_state) busy_api _ _ _
              Hrun Hfail) as [[Hsame _] | (toks & email & e & l' & Htoks & Hemail & _ & Hst & _)].
  - exfalso. assert (Htok : assoc affiliate (tokens (snd (fst result)))
                            = Some new_record) by (vm_compute; reflexivity).
    rewrite Hsame in Htok. vm_compute in Htok. discriminate Htok.
  - injection Htoks as <-. injection Hemail as <-.
    split; [by vm_compute|]. rewrite Hst.
    split; [apply assoc_obj_set_eq | reflexivity].
Defined.

Definition blank_params (account action : string) : Params.t :=
  {| Params.account := account; Params.action := action;
     Params.query := None; Params.to := None; Params.cc := None;
     Params.bcc := None; Params.subject := None; Params.body := None;
     Params.html := None; Params.event_id := None;
     Params.calendar_id := None; Params.start := None; Params.end_ := None;
     Params.location := None; Params.attendees := None;
     Params.time_min := None; Params.time_max := None;
     Params.resource_name := None; Params.given_name := None;
     Params.family_name := None; Params.email := None; Params.phone := None;
     Params.organization := None; Params.max_results := None |}.

(** An all-day start with a timed end. *)
Definition offsite : Params.t :=
  {| Params.account := affiliate; Params.action := "create_event";
     Params.query := None; Params.to := None; Params.cc := None;
     Params.bcc := None; Params.subject := Some "Offsite"; Params.body := None;
     Params.html := None; Params.event_id := None;
     Params.calendar_id := None; Params.start := Some "2025-03-14";
     Params.end_ := Some "2025-03-15T18:00:00Z";
     Params.location := None; Params.attendees := None;
     Params.time_min := None; Params.time_max := None;
     Params.resource_name := None; Params.given_name := None;
     Params.family_name := None; Params.email := None; Params.phone := None;
     Params.organization := None; Params.max_results := None |}.

Lemma event_times_are_classified_by_shape_witness :
  exists args,
    handleCalendar (runtime := sample_runtime) "2025-01-01T00:00:00.000Z" offsite
    = Request "events.insert" args
    /\ get_opt (get_opt args "requestBody") "start"
       = VObj [("date", VStr "2025-03-14")]
    /\ get_opt (get_opt args "requestBody") "end"
       = VObj [("dateTime", VStr "2025-03-15T18:00:00Z")].
Proof.
  assert (Hs : "2025-03-14" <> "") by discriminate.
  assert (He : "2025-03-15T18:00:00Z" <> "") by discriminate.
  destruct (event_times_are_classified_by_shape (runtime := sample_runtime)
              "2025-01-01T00:00:00.000Z" offsite "2025-03-14"
              "2025-03-15T18:00:00Z" eq_refl eq_refl eq_refl Hs eq_refl He)
    as [(args & Hreq & Hstart & Hend) _].
  exists args. split; [exact Hreq|]. split; [exact Hstart | exact Hend].
Defined.

(** A phone number and a family name for a contact whose stored name is
    Ada Lovelace. *)
Definition rename : Params.t :=
  {| Params.account := affiliate; Params.action := "update";
     Params.query := None; Params.to := None; Params.cc := None;
     Params.bcc := None; Params.subject := None; Params.body := None;
     Params.html := None; Params.event_id := None;
     Params.calendar_id := None; Params.start := None; Params.end_ := None;
     Params.location := None; Params.attendees := None;
     Params.time_min := None; Params.time_max := None;
     Params.resource_name := Some "people/c42"; Params.given_name := None;
     Params.family_name := Some "King"; Params.email := None;
     Params.phone := Some "+44 20 7946 0000";
     Params.organization := None; Params.max_results := None |}.

Definition stored_contact : jsval :=
  VObj [("etag", VStr "%EgUBAi43PQ==");
        ("names", VArr [VObj [("givenName", VStr "Ada");
                              ("familyName", VStr "Lovelace")]])].

Lemma update_mask_matches_body_witness :
  get_prop stored_contact "etag" = Some (VStr "%EgUBAi43PQ==")
  /\ update_contact (runtime := sample_runtime) rename stored_contact
     = Request "people.updateContact"
         (VObj [("resourceName", VStr "people/c42");
                ("updatePersonFields", VStr "names,phoneNumbers");
                ("requestBody",
                 VObj [("etag", VStr "%EgUBAi43PQ==");
                       ("names", VArr [VObj [("givenName", VStr "Ada");
                                             ("familyName", VStr "King")]]);
                       ("phoneNumbers",
                        VArr [VObj [("value", VStr "+44 20 7946 0000")]])]);
                ("personFields", VStr PERSON_FIELDS)]).
Proof.
  pose proof (update_mask_matches_body (runtime := sample_runtime) rename
                stored_contact (VStr "%EgUBAi43PQ==") eq_refl) as H.
  split; [reflexivity|]. exact (proj2 (proj2 (proj2 H))).
Defined.

Lemma create_contact_is_never_empty_witness :
  Params.action (blank_params affiliate "create") = "create"
  /\ handleContacts (runtime := sample_runtime) (blank_params affiliate "create")
     = Reply (sample_stringify
                (VObj [("error",
                        VStr "At least given_name or email is required for create")])).
Proof.
  destruct (create_contact_is_never_empty (runtime := sample_runtime)
              (blank_params affiliate "create") eq_refl) as [Hrefused _].
  split; [reflexivity|]. exact (Hrefused eq_refl eq_refl).
Defined.

Lemma reply_subject_is_marked_once_witness :
  let reply := {| Reply.messageId := "<CAF1@mail.gmail.com>";
                  Reply.subject := "Re: Quarterly numbers";
                  Reply.threadId := "18c2" |} in
  truthy_str (Params.subject (blank_params affiliate "reply")) = false
  /\ raw_email_lines (blank_params affiliate "reply") (Some reply)
     = ["To: "; "Subject: Re: Quarterly numbers";
        "In-Reply-To: <CAF1@mail.gmail.com>";
        "References: <CAF1@mail.gmail.com>";
        "Content-Type: text/plain; charset=utf-8"; ""; ""]
  /\ reply_subject "Quarterly numbers" = "Re: Quarterly numbers"
  /\ reply_subject (Reply.subject reply) = Reply.subject reply.
Proof.
  intros reply.
  destruct (reply_subject_is_marked_once (blank_params affiliate "reply") reply
              eq_refl) as (_ & _ & Hidem & _).
  split; [reflexivity|]. split; [reflexivity|]. split; [reflexivity|].
  exact Hidem.
Defined.
